(** * Minsky's Turing locator (minsky_locator.py): shallow embedding and
      verification of its behaviour.

    The Python module defines a [Locator] (the tape, the cursor and the
    current state) and six [State] singletons whose transition tables are
    Python dictionaries.  The embedding keeps the dynamic flavour of the
    source: tape cells are one-character strings, the cursor is a Python
    integer (so [Z], with Python's negative-index rule written out), the
    tables are association lists from the read symbol to a pair
    (write, next), exceptions are values of an error monad, and the two
    [while] loops take a fuel argument.  Methods that mutate their object
    return the new object state; printing and type annotations are not
    modelled. *)

From Stdlib Require Import ZArith List String Ascii Bool Lia Arith.
Import ListNotations.
Open Scope string_scope.
Open Scope Z_scope.
Open Scope list_scope.

(** ** Exceptions and the result monad *)

Inductive exn : Type :=
| AssertionError (msg : string)
| IndexError
| ValueError
| KeyError
| AttributeError.

(** The result of running Python code under a loop budget: a value, a
    raised exception, or the budget ran out before the loops finished. *)
Inductive outcome (A : Type) : Type :=
| Ret (a : A)
| Raise (e : exn)
| OutOfFuel.
Arguments Ret {A} a.
Arguments Raise {A} e.
Arguments OutOfFuel {A}.

Definition bind {A B : Type} (m : outcome A) (k : A -> outcome B) : outcome B :=
  match m with
  | Ret a => k a
  | Raise e => Raise e
  | OutOfFuel => OutOfFuel
  end.

Notation "x <- m ;; k" := (bind m (fun x => k))
  (at level 61, m at next level, right associativity).
Notation "' p <- m ;; k" := (bind m (fun x => let p := x in k))
  (at level 61, p pattern, m at next level, right associativity).

(** [assert cond, msg] *)
Definition assert (cond : bool) (msg : string) : outcome unit :=
  if cond then Ret tt else Raise (AssertionError msg).

(** ** The Python primitives the module uses *)

Module Py.

(** Python's index normalisation: a negative index counts from the end;
    anything still outside [0, n) is an IndexError. *)
Definition norm_index (n : nat) (i : Z) : option nat :=
  let j := if i <? 0 then i + Z.of_nat n else i in
  if (j <? 0) || (Z.of_nat n <=? j) then None else Some (Z.to_nat j).

(** [s[i]] on a str: a one-character string. *)
Definition str_getitem (s : string) (i : Z) : outcome string :=
  match norm_index (String.length s) i with
  | Some j =>
      match String.get j s with
      | Some c => Ret (String c EmptyString)
      | None => Raise IndexError
      end
  | None => Raise IndexError
  end.

(** [l[i]] on a list. *)
Definition list_getitem {A : Type} (l : list A) (i : Z) : outcome A :=
  match norm_index (List.length l) i with
  | Some j =>
      match nth_error l j with
      | Some x => Ret x
      | None => Raise IndexError
      end
  | None => Raise IndexError
  end.

Fixpoint update {A : Type} (l : list A) (j : nat) (x : A) : list A :=
  match l, j with
  | [], _ => []
  | _ :: t, O => x :: t
  | h :: t, S j' => h :: update t j' x
  end.

(** [l[i] = x] on a list. *)
Definition list_setitem {A : Type} (l : list A) (i : Z) (x : A)
  : outcome (list A) :=
  match norm_index (List.length l) i with
  | Some j => Ret (update l j x)
  | None => Raise IndexError
  end.

(** [s.split(sep)] for a one-character separator. *)
Fixpoint split (sep : ascii) (s : string) : list string :=
  match s with
  | EmptyString => [EmptyString]
  | String c s' =>
      if Ascii.eqb c sep then EmptyString :: split sep s'
      else match split sep s' with
           | u :: us => String c u :: us
           | [] => [String c EmptyString]
           end
  end.

Fixpoint char_in (c : ascii) (chars : string) : bool :=
  match chars with
  | EmptyString => false
  | String d chars' => Ascii.eqb c d || char_in c chars'
  end.

Fixpoint lstrip (chars : string) (s : string) : string :=
  match s with
  | EmptyString => EmptyString
  | String c s' => if char_in c chars then lstrip chars s' else s
  end.

Fixpoint rstrip (chars : string) (s : string) : string :=
  match s with
  | EmptyString => EmptyString
  | String c s' =>
      match rstrip chars s' with
      | EmptyString => if char_in c chars then EmptyString
                       else String c EmptyString
      | r => String c r
      end
  end.

(** [s.strip(chars)] *)
Definition strip (chars : string) (s : string) : string :=
  rstrip chars (lstrip chars s).

(** [list(s)]: the list of the one-character strings of [s]. *)
Fixpoint list_of_str (s : string) : list string :=
  match s with
  | EmptyString => []
  | String c s' => String c EmptyString :: list_of_str s'
  end.

(** [sep.join(l)] for the empty separator [sep] *)
Fixpoint join (l : list string) : string :=
  match l with
  | [] => EmptyString
  | x :: l' => (x ++ join l')%string
  end.

Fixpoint index_from (x : string) (l : list string) (i : Z) : outcome Z :=
  match l with
  | [] => Raise ValueError
  | y :: l' => if String.eqb y x then Ret i else index_from x l' (i + 1)
  end.

(** [l.index(x)] *)
Definition list_index (x : string) (l : list string) : outcome Z :=
  index_from x l 0.

(** [len(...)] as a Python integer *)
Definition len_str (s : string) : Z := Z.of_nat (String.length s).
Definition len {A : Type} (l : list A) : Z := Z.of_nat (List.length l).

(** Truth value of a str: non-empty. *)
Definition truthy (s : string) : bool :=
  match s with EmptyString => false | _ => true end.

(** [x in {a, b, ...}] for a set of strings. *)
Definition in_set (x : string) (s : list string) : bool :=
  existsb (String.eqb x) s.

End Py.

(** ** Data model *)

(** The six state classes; the module-level singletons L1 ... R4 are their
    only instances, so a state object is identified with its class. *)
Inductive State : Type := L1 | L2 | R1 | R2 | R3 | R4.

(** [self.__class__.__name__] *)
Definition class_name (self : State) : string :=
  match self with
  | L1 => "Left1" | L2 => "Left2"
  | R1 => "Right1" | R2 => "Right2" | R3 => "Right3" | R4 => "Right4"
  end.

(** What the second component of a table entry, and so [curr_state], can
    hold: a state object or (in the two terminal entries) a str. *)
Inductive obj : Type :=
| ObjState (st : State)
| ObjStr (s : string).

(** A transition table: read symbol |-> (write, next); [None] is Python's
    None. *)
Definition config_t : Type := list (string * (option string * option obj)).

Definition read_write_next (self : State) : config_t :=
  match self with
  | L1 => [("0", (Some "A", None)); ("1", (Some "B", None));
           ("Y", (None, Some (ObjState R1)))]
  | L2 => [("Y", (None, Some (ObjState R1)))]
  | R1 => [("A", (Some "0", Some (ObjState R2)));
           ("B", (Some "1", Some (ObjState R3)));
           ("X", (Some "Copy", Some (ObjStr "Copy")))]
  | R2 => [("0", (Some "A", Some (ObjState L2)));
           ("1", (Some "B", Some (ObjState R4)))]
  | R3 => [("0", (Some "A", Some (ObjState R4)));
           ("1", (Some "B", Some (ObjState L2)))]
  | R4 => [("X", (None, Some (ObjState L1)));
           ("Y", (Some "Halt", Some (ObjStr "Halt")))]
  end.

(** [config[read]] *)
Fixpoint config_get (config : config_t) (read : string)
  : option (option string * option obj) :=
  match config with
  | [] => None
  | (k, v) :: config' =>
      if String.eqb k read then Some v else config_get config' read
  end.

(** [read in config]; the local [read] starts as None, which is no key. *)
Definition config_mem (config : config_t) (read : option string) : bool :=
  match read with
  | None => false
  | Some r => match config_get config r with Some _ => true | None => false end
  end.

(** The attributes of a Locator object.  [curr_state] is absent until
    [start] sets it. *)
Record Locator : Type := mkLocator {
  parse_string : list string;
  pointer : Z;
  curr_state : option obj
}.

Definition set_pointer (context : Locator) (p : Z) : Locator :=
  mkLocator (parse_string context) p (curr_state context).
Definition set_parse_string (context : Locator) (t : list string) : Locator :=
  mkLocator t (pointer context) (curr_state context).
Definition set_curr_state (context : Locator) (s : obj) : Locator :=
  mkLocator (parse_string context) (pointer context) (Some s).

(** ** Locator._validate_string and Locator.__init__ *)

Definition _validate_string (parse_string : string) : outcome (list string) :=
  first <- Py.str_getitem parse_string 0 ;;
  last <- Py.str_getitem parse_string (-1) ;;
  _ <- assert (String.eqb first last && String.eqb last "Y")
         "Improper delimiters" ;;
  let units := Py.split "X"%char parse_string in
  u0 <- Py.list_getitem units 0 ;;
  let target := Py.strip "Y" u0 in
  _ <- assert ((1 <? Py.len units) && Py.truthy target)
         "No target--location pair" ;;
  u1 <- Py.list_getitem units 1 ;;
  _ <- assert ((0 <? Py.len_str target) && (Py.len_str target <? Py.len_str u1))
         "Target--location lengths don't match." ;;
  Ret (Py.list_of_str parse_string).

(** [Locator(parse_string)].  An AssertionError is printed and re-raised;
    the printing is not modelled. *)
Definition __init__ (parse_string : string) : outcome Locator :=
  tape <- _validate_string parse_string ;;
  p <- Py.list_index "X" tape ;;
  Ret (mkLocator tape p None).

(** ** State.shift, State.read, State.process *)

(** [(a and b) or c] where [a] is a bool and [b], [c] are integers: the
    result is [b] when [a] holds and [b] is non-zero, and [c] otherwise. *)
Definition and_or (a : bool) (b c : Z) : Z :=
  if a then (if b =? 0 then c else b) else c.

Definition State_shift (self : State) (context : Locator) : Locator :=
  if String.prefix "L" (class_name self) then
    let shift := pointer context - 1 in
    set_pointer context (and_or (0 <=? shift) shift 0)
  else if String.prefix "R" (class_name self) then
    let shift := pointer context + 1 in
    let str_length := Py.len (parse_string context) in
    set_pointer context (and_or (shift <? str_length) shift (str_length - 1))
  else context.

(** The [while not read in config] loop of [State.read]; one unit of fuel
    per iteration. *)
Fixpoint read_loop (fuel : nat) (self : State) (config : config_t)
    (read : option string) (context : Locator)
  : outcome (option string * Locator) :=
  if config_mem config read then Ret (read, context)
  else
    match fuel with
    | O => OutOfFuel
    | S fuel' =>
        let context := State_shift self context in
        r <- Py.list_getitem (parse_string context) (pointer context) ;;
        read_loop fuel' self config (Some r) context
    end.

Definition State_read (fuel : nat) (self : State) (context : Locator)
  : outcome (option string * Locator) :=
  let config := read_write_next self in
  read_loop fuel self config None context.

Definition verdicts : list string := ["Copy"; "Halt"].

Definition State_process (fuel : nat) (self : State) (context : Locator)
  : outcome (option string * Locator) :=
  '(read, context) <- State_read fuel self context ;;
  let config := read_write_next self in
  match read with
  | None => Raise KeyError
  | Some read =>
    match config_get config read with
    | None => Raise KeyError
    | Some (write, next_) =>
        context <-
          (match write with
           | Some w =>
               if negb (Py.in_set w verdicts) then
                 t <- Py.list_setitem (parse_string context) (pointer context) w ;;
                 Ret (set_parse_string context t)
               else Ret context
           | None => Ret context
           end) ;;
        let context :=
          match next_ with
          | None => set_curr_state context (ObjState self)
          | Some n => set_curr_state context n
          end in
        Ret (write, context)
    end
  end.

(** ** Locator.process and Locator.start *)

(** [write not in {"Halt", "Copy"}] fails exactly when [write] is one of
    the two verdict strings. *)
Definition is_verdict (write : option string) : option string :=
  match write with
  | Some w => if Py.in_set w ["Halt"; "Copy"] then Some w else None
  | None => None
  end.

Fixpoint process_loop (fuel : nat) (write : option string) (self : Locator)
  : outcome ((string * string) * Locator) :=
  match is_verdict write with
  | Some w => Ret ((Py.join (parse_string self), w), self)
  | None =>
      match fuel with
      | O => OutOfFuel
      | S fuel' =>
          match curr_state self with
          | Some (ObjState st) =>
              '(write, self) <- State_process fuel' st self ;;
              process_loop fuel' write self
          | _ => Raise AttributeError
          end
      end
  end.

Definition Locator_process (fuel : nat) (self : Locator)
  : outcome ((string * string) * Locator) :=
  process_loop fuel None self.

Definition Locator_start (fuel : nat) (self : Locator)
  : outcome ((string * string) * Locator) :=
  let self := set_curr_state self (ObjState L1) in
  Locator_process fuel self.

(** [Locator(s).start()]: the value returned. *)
Definition run (fuel : nat) (s : string) : outcome (string * string) :=
  self <- __init__ s ;;
  '(result, _) <- Locator_start fuel self ;;
  Ret result.


(** ** Vocabulary of the statements *)

(** The cursor invariant of the spec: [0 <= pointer < len(parse_string)]. *)
Definition cursor_ok (c : Locator) : Prop :=
  0 <= pointer c < Py.len (parse_string c).

(** Every tape cell is a one-character string. *)
Definition cells_ok (t : list string) : Prop :=
  Forall (fun x => String.length x = 1%nat) t.

(** [k] successive calls of [self.shift(context)]. *)
Fixpoint iter_shift (k : nat) (self : State) (context : Locator) : Locator :=
  match k with
  | O => context
  | S k' => State_shift self (iter_shift k' self context)
  end.

(** The symbol under the cursor, when the cursor is in range. *)
Definition under_cursor (c : Locator) : outcome string :=
  Py.list_getitem (parse_string c) (pointer c).

(** [read] is a key of the table of [self]. *)
Definition accepts (self : State) (read : string) : bool :=
  config_mem (read_write_next self) (Some read).

(** The states that move the cursor to the left. *)
Definition is_left (self : State) : bool :=
  String.prefix "L" (class_name self).

(** A call returns [res] for every large enough loop budget. *)
Definition returns {A : Type} (run_with : nat -> outcome A) (res : A) : Prop :=
  exists fuel, forall fuel', (fuel <= fuel')%nat -> run_with fuel' = Ret res.

(** A call exhausts every loop budget: the Python call never returns. *)
Definition diverges {A : Type} (run_with : nat -> outcome A) : Prop :=
  forall fuel, run_with fuel = OutOfFuel.

(** A Locator seen as a zipper: [l] holds the cells left of the cursor,
    nearest first, [x] is the cell under the cursor and [r] the cells to
    its right. *)
Definition cfg (l : list string) (x : string) (r : list string)
    (cs : option obj) : Locator :=
  mkLocator (rev l ++ x :: r) (Py.len l) cs.

(** What a table entry leaves in the cell it fires on, and the state it
    leaves in [curr_state]. *)
Definition written (y : string) (write : option string) : string :=
  match write with
  | Some w => if negb (Py.in_set w verdicts) then w else y
  | None => y
  end.

Definition next_of (self : State) (next_ : option obj) : obj :=
  match next_ with
  | None => ObjState self
  | Some n => n
  end.

(** [self.process()] returns [res] (value and final object state). *)
Definition halts (c : Locator) (res : (string * string) * Locator) : Prop :=
  returns (fun fuel => Locator_process fuel c) res.

(** The symbol is no key of the table of [self]: State.read moves on. *)
Definition skipped (self : State) (s : string) : Prop :=
  config_get (read_write_next self) s = None.

(** Bits and their two spellings on the tape: as digits 0/1 and as the
    markers A/B. *)
Definition dg (b : bool) : string := if b then "1" else "0".
Definition mk (b : bool) : string := if b then "B" else "A".
Definition digits (bs : list bool) : list string := map dg bs.
Definition marks (bs : list bool) : list string := map mk bs.

(** What a left sweep in state L1 leaves in a cell it passes. *)
Definition relabel (s : string) : string :=
  match config_get (read_write_next L1) s with
  | Some (w, _) => written s w
  | None => s
  end.

(** A cell of an already compared block: a marker or a separator. *)
Definition settled (s : string) : Prop := s = "X" \/ exists b, s = mk b.

(** The state in which the machine looks for the candidate bit that must
    equal the target bit [b]. *)
Definition expecting (b : bool) : State := if b then R3 else R2.

(** The candidate region of a well-formed tape: the blocks [c], [cs]
    separated by X and closed by Y. *)
Fixpoint blocks (c : list bool) (cs : list (list bool)) : list string :=
  match cs with
  | [] => digits c ++ ["Y"]
  | c' :: cs' => digits c ++ "X" :: blocks c' cs'
  end.

(** A well-formed tape: Y, the target, X, the candidate region. *)
Definition input_tape (t c : list bool) (cs : list (list bool)) : list string :=
  "Y" :: digits t ++ "X" :: blocks c cs.

(** The tape at the start of the comparison of the target bit after [t1]
    with the candidate bit after the equal prefix [t1]: cursor on the
    opening Y, state R1. *)
Definition comparing (t1 t2 : list bool) (P : list string) (c2 : list bool)
    (rest : list string) : Locator :=
  cfg [] "Y"
      (digits t1 ++ marks t2 ++ "X" :: P ++ marks t1 ++ digits c2 ++ rest)
      (Some (ObjState R1)).

(** What follows a candidate block: the closing Y, or a separator and the
    remaining blocks. *)
Definition closing (cs : list (list bool)) : list string :=
  match cs with
  | [] => ["Y"]
  | c' :: cs' => "X" :: blocks c' cs'
  end.

(** Length of the longest common prefix of the target and a candidate. *)
Fixpoint common (t c : list bool) : nat :=
  match t, c with
  | b :: t', b' :: c' => if Bool.eqb b b' then S (common t' c') else O
  | _, _ => O
  end.

(** The candidate block begins with the whole target. *)
Definition begins_with (t c : list bool) : bool :=
  (common t c =? List.length t)%nat.

(** The predicted end of a run on a well-formed tape whose earlier blocks
    (already compared and marked) are [P]: the final tape, the final cursor
    and the verdict. *)
Fixpoint located (t : list bool) (P : list string) (c : list bool)
    (cs : list (list bool)) : (list string * Z) * string :=
  if begins_with t c then
    ("Y" :: digits t ++ "X" :: P ++ marks t
         ++ digits (skipn (List.length t) c) ++ closing cs,
     Z.of_nat (List.length t) + 1, "Copy")
  else
    match cs with
    | [] =>
        let k := S (common t c) in
        let body := "Y" :: digits (firstn k t) ++ marks (skipn k t) ++ "X"
                        :: P ++ marks (firstn k c) ++ digits (skipn k c) in
        (body ++ ["Y"], Py.len body, "Halt")
    | c' :: cs' => located t (P ++ marks c ++ ["X"]) c' cs'
    end.

(** The value and final object state of a run predicted by [located]. *)
Definition outcome_of (r : (list string * Z) * string)
  : (string * string) * Locator :=
  let '((T, p), v) := r in
  ((Py.join T, v), mkLocator T p (Some (ObjStr v))).

(** The contexts a run from [c0] passes through: the start, every shift
    made by the current state, every context a State.process call returns. *)
Inductive visited (c0 : Locator) : Locator -> Prop :=
| visited_start : visited c0 c0
| visited_shift (c : Locator) (st : State) :
    visited c0 c -> curr_state c = Some (ObjState st) ->
    visited c0 (State_shift st c)
| visited_process (c : Locator) (st : State) (fuel : nat)
    (w : option string) (c' : Locator) :
    visited c0 c -> curr_state c = Some (ObjState st) ->
    State_process fuel st c = Ret (w, c') ->
    visited c0 c'.

(** *** The input contract in the words of the specification

    Section 6 of the specification: the tape begins and ends with the
    delimiter Y; it contains at least one separator X; the target segment
    (between the first Y and the first X) is non-empty and strictly shorter
    than the first candidate segment (between the first and second X, or
    the last X and the closing Y). *)

Fixpoint last_char (s : string) : option ascii :=
  match s with
  | EmptyString => None
  | String c EmptyString => Some c
  | String _ s' => last_char s'
  end.

Fixpoint drop_last (s : string) : string :=
  match s with
  | EmptyString => EmptyString
  | String _ EmptyString => EmptyString
  | String c s' => String c (drop_last s')
  end.

Definition contract_spec (s : string) : bool :=
  match s with
  | EmptyString => false
  | String c body =>
      Ascii.eqb c "Y" &&
      match last_char s with Some l => Ascii.eqb l "Y" | None => false end &&
      match Py.split "X" body with
      | target :: segment :: more =>
          let candidate :=
            match more with
            | [] => drop_last segment
            | _ :: _ => segment
            end in
          (0 <? String.length target)%nat &&
          (String.length target <? String.length candidate)%nat
      | _ => false
      end
  end.

(** *** What the validation of the code accepts

    The string begins and ends with Y and splits at its first X, and at
    the next X if there is one, into [u0], [u1] and the rest; the target
    is [u0] with every leading and trailing Y stripped, it is non-empty
    and strictly shorter than [u1] (which, when there is no other X, runs
    to the end of the string and so includes the closing Y). *)
Definition accepted_shape (s : string) : Prop :=
  exists u0 u1 rest,
    s = (u0 ++ String "X" (u1 ++ rest))%string /\
    Py.char_in "X" u0 = false /\ Py.char_in "X" u1 = false /\
    (rest = EmptyString \/ exists rest', rest = String "X" rest') /\
    (exists body, s = String "Y" body) /\
    last_char s = Some "Y"%char /\
    (0 < String.length (Py.strip "Y" u0) < String.length u1)%nat.

(** The contexts on which a run from [c0] calls State.process, and so
    State.read: the start, and every context returned by such a call whose
    write is no verdict. *)
Inductive entered (c0 : Locator) : Locator -> Prop :=
| entered_start : entered c0 c0
| entered_next (c : Locator) (st : State) (fuel : nat)
    (w : option string) (c' : Locator) :
    entered c0 c -> curr_state c = Some (ObjState st) ->
    State_process fuel st c = Ret (w, c') -> is_verdict w = None ->
    entered c0 c'.

(** The cursor has room to move in the direction of the current state. *)
Definition room (c : Locator) : Prop :=
  exists st,
    curr_state c = Some (ObjState st) /\
    (is_left st = true -> 0 < pointer c) /\
    (is_left st = false -> pointer c < Py.len (parse_string c) - 1).

(** The first and the last cell of the tape hold the delimiter Y. *)
Definition delimited (T : list string) : Prop :=
  nth_error T 0 = Some "Y" /\ nth_error T (List.length T - 1) = Some "Y".

(** *** Vocabulary of the further properties *)

(** A marker read back as the digit it stands for. *)
Definition unmark (s : string) : string :=
  if String.eqb s "A" then "0" else if String.eqb s "B" then "1" else s.

(** The candidate region made of the blocks of a list. *)
Definition region (l : list (list bool)) : list string :=
  match l with
  | [] => []
  | c :: cs => blocks c cs
  end.

(** Blocks that a failed comparison has left: marked throughout, each with
    its separator. *)
Fixpoint marked_blocks (l : list (list bool)) : list string :=
  match l with
  | [] => []
  | b :: l' => marks b ++ "X" :: marked_blocks l'
  end.

(** The second unit of a well-formed tape: the first block, and with it
    the closing Y when there is no other block. *)
Definition second_unit_length (c : list bool) (cs : list (list bool)) : nat :=
  match cs with
  | [] => S (List.length c)
  | _ :: _ => List.length c
  end.

(** ** Fuel: a larger budget never changes a result *)

Section Fuel.

Lemma read_loop_mono (self : State) (config : config_t) :
  forall (f f' : nat) read c o,
    read_loop f self config read c = o -> o <> OutOfFuel ->
    (f <= f')%nat -> read_loop f' self config read c = o.
Proof.
  induction f as [|f IH]; intros f' read c o Hr Ho Hle.
  - simpl in Hr. destruct f'; simpl;
      destruct (config_mem config read); congruence.
  - destruct f' as [|f']; [lia|].
    simpl in *. destruct (config_mem config read); [exact Hr|].
    destruct (Py.list_getitem _ _) as [r| |]; simpl in *; try exact Hr.
    apply IH with (f' := f') in Hr; [exact Hr|exact Ho|lia].
Qed.

Lemma State_process_mono (self : State) :
  forall (f f' : nat) c o,
    State_process f self c = o -> o <> OutOfFuel ->
    (f <= f')%nat -> State_process f' self c = o.
Proof.
  intros f f' c o Hp Ho Hle. unfold State_process, State_read in *.
  destruct (read_loop f self (read_write_next self) None c) as [[r c1]| |] eqn:E.
  - rewrite (read_loop_mono _ _ f f' _ _ _ E) by (congruence || lia).
    exact Hp.
  - rewrite (read_loop_mono _ _ f f' _ _ _ E) by (congruence || lia).
    exact Hp.
  - simpl in Hp. congruence.
Qed.

Lemma process_loop_mono :
  forall (f f' : nat) write c o,
    process_loop f write c = o -> o <> OutOfFuel ->
    (f <= f')%nat -> process_loop f' write c = o.
Proof.
  induction f as [|f IH]; intros f' write c o Hr Ho Hle.
  - simpl in Hr. destruct f'; simpl; destruct (is_verdict write); congruence.
  - destruct f' as [|f']; [lia|].
    simpl in *. destruct (is_verdict write); [exact Hr|].
    destruct (curr_state c) as [[st|]|]; try exact Hr.
    destruct (State_process f st c) as [[w c1]| |] eqn:E.
    + rewrite (State_process_mono _ f f' _ _ E) by (congruence || lia).
      simpl in *. apply IH with (f' := f') in Hr; [exact Hr|exact Ho|lia].
    + rewrite (State_process_mono _ f f' _ _ E) by (congruence || lia).
      exact Hr.
    + simpl in Hr. congruence.
Qed.

Lemma returns_unique {A : Type} (g : nat -> outcome A) (r1 r2 : A) :
  returns g r1 -> returns g r2 -> r1 = r2.
Proof.
  intros [f1 H1] [f2 H2].
  specialize (H1 (Nat.max f1 f2) (Nat.le_max_l _ _)).
  specialize (H2 (Nat.max f1 f2) (Nat.le_max_r _ _)).
  congruence.
Qed.

Lemma diverges_not_returns {A : Type} (g : nat -> outcome A) (res : A) :
  diverges g -> ~ returns g res.
Proof.
  intros Hd [f Hf]. specialize (Hf f (Nat.le_refl f)).
  rewrite Hd in Hf. discriminate.
Qed.

End Fuel.

(** ** One iteration of State.read, and the zipper view *)

Section Steps.

Lemma norm_index_in (n : nat) (i : Z) :
  0 <= i < Z.of_nat n -> Py.norm_index n i = Some (Z.to_nat i).
Proof.
  intros H. unfold Py.norm_index.
  destruct (Z.ltb_spec i 0); [lia|].
  destruct (Z.ltb_spec i 0); [lia|].
  destruct (Z.leb_spec (Z.of_nat n) i); [lia|]. reflexivity.
Qed.

Lemma update_middle {A : Type} (a : list A) (x w : A) (r : list A) :
  Py.update (a ++ x :: r) (List.length a) w = a ++ w :: r.
Proof. induction a as [|h a IH]; simpl; [reflexivity|]. now rewrite IH. Qed.

Lemma length_update {A : Type} (l : list A) (j : nat) (w : A) :
  List.length (Py.update l j w) = List.length l.
Proof.
  revert j. induction l as [|h l IH]; intros [|j]; simpl; auto.
Qed.

Lemma under_cursor_cfg l x r cs : under_cursor (cfg l x r cs) = Ret x.
Proof.
  unfold under_cursor, cfg, Py.list_getitem, Py.len. simpl.
  rewrite norm_index_in.
  - rewrite Nat2Z.id, nth_error_app2 by (rewrite length_rev; lia).
    rewrite length_rev, Nat.sub_diag. reflexivity.
  - rewrite length_app, length_rev. simpl. lia.
Qed.

Lemma setitem_cfg (l : list string) (x : string) (r : list string) (w : string) :
  Py.list_setitem (rev l ++ x :: r) (Py.len l) w = Ret (rev l ++ w :: r).
Proof.
  unfold Py.list_setitem, Py.len. rewrite norm_index_in.
  - rewrite Nat2Z.id. rewrite <- (length_rev l) at 1.
    now rewrite update_middle.
  - rewrite length_app, length_rev. simpl. lia.
Qed.

Lemma right_of_not_left (st : State) :
  is_left st = false -> String.prefix "R" (class_name st) = true.
Proof. destruct st; simpl; intros H; (discriminate || reflexivity). Qed.

Lemma shift_right_cfg st l x y r cs :
  is_left st = false ->
  State_shift st (cfg l x (y :: r) cs) = cfg (x :: l) y r cs.
Proof.
  intros H. unfold State_shift. fold (is_left st). rewrite H.
  rewrite (right_of_not_left _ H). unfold cfg, set_pointer, and_or, Py.len.
  simpl. rewrite <- app_assoc. simpl. f_equal.
  rewrite !length_app, length_rev. simpl.
  destruct (Z.ltb_spec (Z.of_nat (List.length l) + 1)
              (Z.of_nat (List.length l + S (S (List.length r))))); [|lia].
  destruct (Z.eqb_spec (Z.of_nat (List.length l) + 1) 0); lia.
Qed.

Lemma shift_right_end st l x cs :
  is_left st = false ->
  State_shift st (cfg l x [] cs) = cfg l x [] cs.
Proof.
  intros H. unfold State_shift. fold (is_left st). rewrite H.
  rewrite (right_of_not_left _ H). unfold cfg, set_pointer, and_or, Py.len.
  simpl. f_equal.
  rewrite !length_app, length_rev. simpl.
  destruct (Z.ltb_spec (Z.of_nat (List.length l) + 1)
              (Z.of_nat (List.length l + 1))); lia.
Qed.

Lemma shift_left_cfg st l x y r cs :
  is_left st = true ->
  State_shift st (cfg (y :: l) x r cs) = cfg l y (x :: r) cs.
Proof.
  intros H. unfold State_shift. fold (is_left st). rewrite H.
  unfold cfg, set_pointer, and_or, Py.len.
  cbn [parse_string pointer curr_state rev].
  rewrite <- app_assoc. cbn [app]. f_equal.
  change (List.length (y :: l)) with (S (List.length l)).
  rewrite Nat2Z.inj_succ.
  destruct (Z.leb_spec 0 (Z.succ (Z.of_nat (List.length l)) - 1)); [|lia].
  destruct (Z.eqb_spec (Z.succ (Z.of_nat (List.length l)) - 1) 0); lia.
Qed.

(** An iteration that lands on a symbol outside the table goes round the
    loop again. *)
Lemma State_process_skip (self : State) (f : nat) (c : Locator) (r : string) :
  under_cursor (State_shift self c) = Ret r ->
  config_get (read_write_next self) r = None ->
  State_process (S f) self c = State_process f self (State_shift self c).
Proof.
  intros Hu Hg. unfold State_process, State_read.
  cbn [read_loop config_mem]. unfold under_cursor in Hu. rewrite Hu.
  cbn [bind].
  assert (E : forall c',
    read_loop f self (read_write_next self) (Some r) c' =
    read_loop f self (read_write_next self) None c').
  { intros c'. destruct f; simpl; rewrite Hg; reflexivity. }
  rewrite E. reflexivity.
Qed.

(** An iteration that lands on a key of the table ends the loop, and
    State.process applies the entry. *)
Lemma State_process_hit (self : State) (f : nat) l r cs c y w n :
  State_shift self c = cfg l y r cs ->
  config_get (read_write_next self) y = Some (w, n) ->
  State_process (S f) self c =
    Ret (w, cfg l (written y w) r (Some (next_of self n))).
Proof.
  intros Hs Hg. unfold State_process, State_read.
  cbn [read_loop config_mem]. rewrite Hs.
  pose proof (under_cursor_cfg l y r cs) as Hu. unfold under_cursor in Hu.
  rewrite Hu. cbn [bind].
  assert (E : read_loop f self (read_write_next self) (Some y) (cfg l y r cs)
              = Ret (Some y, cfg l y r cs)).
  { destruct f; simpl; rewrite Hg; reflexivity. }
  rewrite E. cbn [bind]. rewrite Hg.
  unfold written. destruct w as [w|].
  - destruct (negb (Py.in_set w verdicts)).
    + cbn [parse_string pointer cfg]. rewrite setitem_cfg. cbn [bind].
      destruct n; reflexivity.
    + cbn [bind]. destruct n; reflexivity.
  - cbn [bind]. destruct n; reflexivity.
Qed.

End Steps.

(** ** Locator.process, one State.process call at a time *)

Section Driving.

Lemma process_loop_restart (f : nat) (w : option string) (c : Locator) :
  is_verdict w = None -> process_loop f w c = process_loop f None c.
Proof. intros H. destruct f; simpl; rewrite H; reflexivity. Qed.

Lemma process_loop_unfold (f : nat) (c : Locator) (st : State) :
  curr_state c = Some (ObjState st) ->
  process_loop (S f) None c =
    bind (State_process f st c) (fun x => process_loop f (fst x) (snd x)).
Proof.
  intros H. simpl. rewrite H.
  destruct (State_process f st c) as [[w c']| |]; reflexivity.
Qed.

Lemma halts_next (c c' : Locator) (st : State) (w : option string) (f0 : nat) res :
  curr_state c = Some (ObjState st) ->
  State_process f0 st c = Ret (w, c') ->
  is_verdict w = None ->
  halts c' res -> halts c res.
Proof.
  intros Hc Hp Hw [f1 H1]. exists (S (Nat.max f0 f1)).
  intros [|f'] Hle; [lia|]. unfold Locator_process.
  rewrite (process_loop_unfold _ _ _ Hc).
  rewrite (State_process_mono st f0 f' _ _ Hp) by (congruence || lia).
  cbn [bind fst snd]. rewrite process_loop_restart by exact Hw.
  apply H1. lia.
Qed.

Lemma halts_last (c c' : Locator) (st : State) (w : option string) (v : string)
    (f0 : nat) :
  curr_state c = Some (ObjState st) ->
  State_process f0 st c = Ret (w, c') ->
  is_verdict w = Some v ->
  halts c ((Py.join (parse_string c'), v), c').
Proof.
  intros Hc Hp Hw. exists (S f0).
  intros [|f'] Hle; [lia|]. unfold Locator_process.
  rewrite (process_loop_unfold _ _ _ Hc).
  rewrite (State_process_mono st f0 f' _ _ Hp) by (congruence || lia).
  cbn [bind fst snd]. destruct f'; simpl; rewrite Hw; reflexivity.
Qed.

Lemma halts_skip (c : Locator) (st : State) (r : string) res :
  curr_state c = Some (ObjState st) ->
  under_cursor (State_shift st c) = Ret r ->
  skipped st r ->
  halts (State_shift st c) res -> halts c res.
Proof.
  intros Hc Hu Hs [f1 H1]. exists (S (S f1)).
  intros [|[|f']] Hle; try lia. unfold Locator_process in *.
  assert (Hc' : curr_state (State_shift st c) = Some (ObjState st)).
  { unfold State_shift.
    destruct (String.prefix "L" (class_name st)); [exact Hc|].
    destruct (String.prefix "R" (class_name st)); exact Hc. }
  rewrite (process_loop_unfold _ _ _ Hc).
  rewrite (State_process_skip st f' c r Hu Hs).
  assert (H2 : process_loop (S f') None (State_shift st c) = Ret res)
    by (apply H1; lia).
  rewrite (process_loop_unfold _ _ _ Hc') in H2.
  destruct (State_process f' st (State_shift st c)) as [[w c2]| |];
    cbn [bind fst snd] in *; try discriminate.
  apply (process_loop_mono f' (S f')); [exact H2|congruence|lia].
Qed.

(** Scanning to the right over skipped cells [ws] up to a key [y]. *)
Lemma find_right (st : State) (w : option string) (n : option obj) (y : string) :
  is_left st = false ->
  config_get (read_write_next st) y = Some (w, n) ->
  is_verdict w = None ->
  forall ws l x r res,
    Forall (skipped st) ws ->
    halts (cfg (rev ws ++ x :: l) (written y w) r (Some (next_of st n))) res ->
    halts (cfg l x (ws ++ y :: r) (Some (ObjState st))) res.
Proof.
  intros Hd Hg Hw. induction ws as [|a ws IH]; intros l x r res Hsk Hh.
  - simpl in *.
    eapply (halts_next _ _ st w 1%nat); [reflexivity| |exact Hw|exact Hh].
    eapply State_process_hit; [apply shift_right_cfg; exact Hd|exact Hg].
  - inversion Hsk as [|? ? Ha Hws]; subst.
    simpl app.
    eapply (halts_skip _ st a); [reflexivity| | exact Ha|].
    + rewrite shift_right_cfg by exact Hd. apply under_cursor_cfg.
    + rewrite shift_right_cfg by exact Hd. apply IH; [exact Hws|].
      simpl rev in Hh. rewrite <- app_assoc in Hh. exact Hh.
Qed.

(** The same scan when the key carries a verdict: the run ends there. *)
Lemma stop_right (st : State) (w : option string) (n : option obj)
    (y v : string) :
  is_left st = false ->
  config_get (read_write_next st) y = Some (w, n) ->
  is_verdict w = Some v ->
  forall ws l x r,
    Forall (skipped st) ws ->
    halts (cfg l x (ws ++ y :: r) (Some (ObjState st)))
      ((Py.join (rev (rev ws ++ x :: l) ++ written y w :: r), v),
       cfg (rev ws ++ x :: l) (written y w) r (Some (next_of st n))).
Proof.
  intros Hd Hg Hw. induction ws as [|a ws IH]; intros l x r Hsk.
  - simpl app.
    apply (halts_last _ (cfg (x :: l) (written y w) r (Some (next_of st n)))
             st w v 1%nat); [reflexivity| |exact Hw].
    eapply State_process_hit; [apply shift_right_cfg; exact Hd|exact Hg].
  - inversion Hsk as [|? ? Ha Hws]; subst.
    simpl app.
    eapply (halts_skip _ st a); [reflexivity| | exact Ha|].
    + rewrite shift_right_cfg by exact Hd. apply under_cursor_cfg.
    + rewrite shift_right_cfg by exact Hd.
      simpl rev. rewrite <- (app_assoc (rev ws) [a] (x :: l)).
      exact (IH (x :: l) a r Hws).
Qed.

(** Scanning to the left over skipped cells [ws] (nearest first) up to a
    key [y]. *)
Lemma find_left (st : State) (w : option string) (n : option obj) (y : string) :
  is_left st = true ->
  config_get (read_write_next st) y = Some (w, n) ->
  is_verdict w = None ->
  forall ws l x r res,
    Forall (skipped st) ws ->
    halts (cfg l (written y w) (rev ws ++ x :: r) (Some (next_of st n))) res ->
    halts (cfg (ws ++ y :: l) x r (Some (ObjState st))) res.
Proof.
  intros Hd Hg Hw. induction ws as [|a ws IH]; intros l x r res Hsk Hh.
  - simpl in *.
    eapply (halts_next _ _ st w 1%nat); [reflexivity| |exact Hw|exact Hh].
    eapply State_process_hit; [apply shift_left_cfg; exact Hd|exact Hg].
  - inversion Hsk as [|? ? Ha Hws]; subst.
    simpl app.
    eapply (halts_skip _ st a); [reflexivity| | exact Ha|].
    + rewrite shift_left_cfg by exact Hd. apply under_cursor_cfg.
    + rewrite shift_left_cfg by exact Hd. apply IH; [exact Hws|].
      simpl rev in Hh. rewrite <- app_assoc in Hh. exact Hh.
Qed.

End Driving.

(** ** The six tables on the tape alphabet *)

Section Tables.

Lemma R1_digit b : skipped R1 (dg b).
Proof. destruct b; reflexivity. Qed.

Lemma R1_mark b :
  config_get (read_write_next R1) (mk b)
  = Some (Some (dg b), Some (ObjState (expecting b))).
Proof. destruct b; reflexivity. Qed.

Lemma digit_no_verdict b : is_verdict (Some (dg b)) = None.
Proof. destruct b; reflexivity. Qed.

Lemma mark_no_verdict b : is_verdict (Some (mk b)) = None.
Proof. destruct b; reflexivity. Qed.

Lemma written_digit s b : written s (Some (dg b)) = dg b.
Proof. destruct b; reflexivity. Qed.

Lemma written_mark s b : written s (Some (mk b)) = mk b.
Proof. destruct b; reflexivity. Qed.

Lemma expecting_right b : is_left (expecting b) = false.
Proof. destruct b; reflexivity. Qed.

Lemma expecting_settled b s : settled s -> skipped (expecting b) s.
Proof.
  intros [->|[b' ->]]; [destruct b|destruct b, b']; reflexivity.
Qed.

Lemma expecting_digit b b' :
  config_get (read_write_next (expecting b)) (dg b')
  = Some (Some (mk b'),
          Some (ObjState (if Bool.eqb b b' then L2 else R4))).
Proof. destruct b, b'; reflexivity. Qed.

Lemma L2_digit b : skipped L2 (dg b).
Proof. destruct b; reflexivity. Qed.

Lemma L2_settled s : settled s -> skipped L2 s.
Proof. intros [->|[b' ->]]; [|destruct b']; reflexivity. Qed.

Lemma R4_digit b : skipped R4 (dg b).
Proof. destruct b; reflexivity. Qed.

Lemma relabel_digit b : relabel (dg b) = mk b.
Proof. destruct b; reflexivity. Qed.

Lemma relabel_settled s : settled s -> relabel s = s.
Proof. intros [->|[b' ->]]; [|destruct b']; reflexivity. Qed.

Lemma relabel_mark b : relabel (mk b) = mk b.
Proof. destruct b; reflexivity. Qed.

Lemma relabel_X : relabel "X" = "X".
Proof. reflexivity. Qed.

Lemma mark_not_Y b : mk b <> "Y".
Proof. destruct b; discriminate. Qed.

Lemma X_not_Y : "X" <> "Y".
Proof. discriminate. Qed.

Lemma digit_not_X b : dg b <> "X".
Proof. destruct b; discriminate. Qed.

Lemma eqb_negb b : Bool.eqb b (negb b) = false.
Proof. destruct b; reflexivity. Qed.

Lemma digit_not_Y b : dg b <> "Y".
Proof. destruct b; discriminate. Qed.

Lemma settled_not_Y s : settled s -> s <> "Y".
Proof. intros [->|[b' ->]]; [|destruct b']; discriminate. Qed.

Lemma settled_mark b : settled (mk b).
Proof. right. now exists b. Qed.

Lemma settled_X : settled "X".
Proof. now left. Qed.

(** The entries of L1: a digit is relabelled and the state kept; any
    other key is the delimiter Y. *)
Lemma L1_entry s w n :
  config_get (read_write_next L1) s = Some (w, n) ->
  s <> "Y" ->
  n = None /\ is_verdict w = None.
Proof.
  intros H Hy. cbn [read_write_next config_get] in H.
  destruct (String.eqb_spec "0" s); [inversion H; now split|].
  destruct (String.eqb_spec "1" s); [inversion H; now split|].
  destruct (String.eqb_spec "Y" s); [congruence|discriminate].
Qed.

Lemma Forall_digits (P : string -> Prop) bs :
  (forall b, P (dg b)) -> Forall P (digits bs).
Proof. intros H. unfold digits. apply Forall_map, Forall_forall. auto. Qed.

Lemma Forall_marks (P : string -> Prop) bs :
  (forall b, P (mk b)) -> Forall P (marks bs).
Proof. intros H. unfold marks. apply Forall_map, Forall_forall. auto. Qed.

Lemma relabel_digits bs : map relabel (digits bs) = marks bs.
Proof.
  unfold digits, marks. rewrite map_map. apply map_ext, relabel_digit.
Qed.

Lemma relabel_marks bs : map relabel (marks bs) = marks bs.
Proof.
  unfold marks. rewrite map_map. apply map_ext.
  intros b. apply relabel_settled, settled_mark.
Qed.

Lemma relabel_all_settled P : Forall settled P -> map relabel P = P.
Proof.
  induction 1 as [|s P Hs _ IH]; simpl; [reflexivity|].
  now rewrite IH, relabel_settled.
Qed.

Lemma digits_app a b : digits (a ++ b) = digits a ++ digits b.
Proof. apply map_app. Qed.

Lemma marks_app a b : marks (a ++ b) = marks a ++ marks b.
Proof. apply map_app. Qed.

End Tables.

Create HintDb tape.
#[local] Hint Resolve R1_digit expecting_settled L2_digit L2_settled R4_digit
  digit_not_Y settled_not_Y settled_mark settled_X mark_not_Y X_not_Y : tape.

(** Normal form of tape expressions: appends associated to the right,
    reversals and relabellings pushed to the leaves. *)
Ltac tape_norm :=
  repeat first
    [ rewrite digits_app | rewrite marks_app | rewrite map_app
    | rewrite rev_app_distr | rewrite rev_involutive | rewrite map_rev
    | rewrite relabel_digits | rewrite relabel_marks
    | rewrite relabel_digit | rewrite relabel_mark | rewrite relabel_X
    | rewrite <- app_assoc
    | progress cbn [app rev map digits marks] ].

Ltac all_cells :=
  repeat first
    [ apply Forall_nil
    | apply Forall_app; split
    | apply Forall_cons
    | apply Forall_rev
    | apply Forall_digits; intros ?
    | apply Forall_marks; intros ?
    | eapply Forall_impl; [|eassumption]; intros ? ? ];
  auto with tape.

(** ** The machine on well-formed tapes *)

Section Machine.

Lemma halts_same (c c' : Locator) res : c = c' -> halts c' res -> halts c res.
Proof. now intros ->. Qed.

Lemma halts_cfg_r l x r r' cs res :
  r = r' -> halts (cfg l x r' cs) res -> halts (cfg l x r cs) res.
Proof. now intros ->. Qed.

Lemma halts_cfg_l l l' x r cs res :
  l = l' -> halts (cfg l' x r cs) res -> halts (cfg l x r cs) res.
Proof. now intros ->. Qed.

(** The left sweep of L1: every cell down to the nearest Y on the left is
    relabelled, and the machine is left on that Y in state R1. *)
Lemma sweep_left :
  forall ws l x r res,
    Forall (fun s => s <> "Y") ws ->
    halts (cfg l "Y" (rev (map relabel ws) ++ x :: r) (Some (ObjState R1))) res ->
    halts (cfg (ws ++ "Y" :: l) x r (Some (ObjState L1))) res.
Proof.
  induction ws as [|s ws IH]; intros l x r res Hws Hh.
  - apply (find_left L1 None (Some (ObjState R1)) "Y" eq_refl eq_refl eq_refl
             [] l x r res); [constructor|exact Hh].
  - inversion Hws as [|? ? Hs Hws']; subst. simpl app.
    cbn [map rev] in Hh. rewrite <- app_assoc in Hh. cbn [app] in Hh.
    destruct (config_get (read_write_next L1) s) as [[w n]|] eqn:E.
    + destruct (L1_entry _ _ _ E Hs) as [-> Hw].
      eapply (halts_next _ _ L1 w 1%nat); [reflexivity| |exact Hw|].
      * eapply State_process_hit; [apply shift_left_cfg; reflexivity|exact E].
      * apply IH; [exact Hws'|]. unfold relabel in Hh. rewrite E in Hh.
        exact Hh.
    + eapply (halts_skip _ L1 s); [reflexivity| |exact E|].
      * rewrite shift_left_cfg by reflexivity. apply under_cursor_cfg.
      * rewrite shift_left_cfg by reflexivity. apply IH; [exact Hws'|].
        unfold relabel in Hh. rewrite E in Hh. exact Hh.
Qed.

(** The first two legs of a comparison: R1 restores the next target bit
    [b], and the state expecting [b] marks the next candidate bit [b']. *)
Lemma compare_bit (b b' : bool) t1 t2 P c2 rest res :
  Forall settled P ->
  halts (cfg (rev (marks t1) ++ rev P ++ "X" :: rev (marks t2) ++ dg b
                :: rev (digits t1) ++ ["Y"])
           (mk b') (digits c2 ++ rest)
           (Some (ObjState (if Bool.eqb b b' then L2 else R4)))) res ->
  halts (comparing t1 (b :: t2) P (b' :: c2) rest) res.
Proof.
  intros HP Hh. unfold comparing.
  change (marks (b :: t2)) with (mk b :: marks t2).
  change (digits (b' :: c2)) with (dg b' :: digits c2). cbn [app].
  apply (find_right R1 _ _ (mk b) eq_refl (R1_mark b) (digit_no_verdict b)
           (digits t1)); [all_cells|].
  rewrite written_digit. cbn [next_of].
  apply (halts_cfg_r _ _ _
           ((marks t2 ++ "X" :: P ++ marks t1) ++ dg b' :: digits c2 ++ rest));
    [tape_norm; reflexivity|].
  apply (find_right (expecting b) _ _ (dg b') (expecting_right b)
           (expecting_digit b b') (mark_no_verdict b')); [all_cells|].
  rewrite written_mark. cbn [next_of].
  eapply halts_cfg_l; [|exact Hh]. tape_norm. reflexivity.
Qed.

Lemma halts_res c res res' : res = res' -> halts c res' -> halts c res.
Proof. now intros ->. Qed.

Lemma cfg_rev pre x r cs :
  cfg (rev pre) x r cs = mkLocator (pre ++ x :: r) (Py.len pre) cs.
Proof.
  unfold cfg, Py.len. now rewrite rev_involutive, length_rev.
Qed.

(** A matching bit: L2 walks back to the opening Y and the comparison
    moves one bit on. *)
Lemma round_match (b : bool) t1 t2 P c2 rest res :
  Forall settled P ->
  halts (comparing (t1 ++ [b]) t2 P c2 rest) res ->
  halts (comparing t1 (b :: t2) P (b :: c2) rest) res.
Proof.
  intros HP Hh. apply compare_bit; [exact HP|].
  rewrite Bool.eqb_reflx.
  apply (halts_cfg_l _
           ((rev (marks t1) ++ rev P ++ "X" :: rev (marks t2) ++ dg b
               :: rev (digits t1)) ++ ["Y"]));
    [tape_norm; reflexivity|].
  apply (find_left L2 None (Some (ObjState R1)) "Y" eq_refl eq_refl eq_refl
           (rev (marks t1) ++ rev P ++ "X" :: rev (marks t2) ++ dg b
              :: rev (digits t1)) [] (mk b) (digits c2 ++ rest) res).
  - all_cells.
  - cbn [written next_of]. eapply halts_cfg_r; [|exact Hh].
    tape_norm. reflexivity.
Qed.

(** A candidate that begins with the target: verdict Copy at the
    separator that ends the target. *)
Lemma candidate_copy :
  forall t2 t1 P c3 rest,
    Forall settled P ->
    halts (comparing t1 t2 P (t2 ++ c3) rest)
      (outcome_of
         ("Y" :: digits (t1 ++ t2) ++ "X" :: P ++ marks (t1 ++ t2)
              ++ digits c3 ++ rest,
          Z.of_nat (List.length (t1 ++ t2)) + 1, "Copy")).
Proof.
  induction t2 as [|b t2 IH]; intros t1 P c3 rest HP.
  - unfold comparing. rewrite app_nil_r. cbn [marks map app].
    eapply halts_res;
      [|apply (stop_right R1 (Some "Copy") (Some (ObjStr "Copy")) "X" "Copy"
                 eq_refl eq_refl eq_refl (digits t1) [] "Y"
                 (P ++ marks t1 ++ digits c3 ++ rest)); all_cells].
    cbn [written negb Py.in_set verdicts existsb String.eqb Ascii.eqb
           Bool.eqb orb next_of outcome_of].
    replace (rev (digits t1) ++ ["Y"]) with (rev ("Y" :: digits t1))
      by reflexivity.
    rewrite cfg_rev, rev_involutive. cbn [app].
    unfold Py.len. cbn [List.length]. unfold digits.
    rewrite length_map, Nat2Z.inj_succ, Z.add_1_r. reflexivity.
  - cbn [app]. apply round_match; [exact HP|].
    specialize (IH (t1 ++ [b]) P c3 rest HP).
    rewrite <- app_assoc in IH. exact IH.
Qed.

(** A differing bit in the last block: R4 runs to the closing Y and the
    verdict is Halt. *)
Lemma mismatch_halt :
  forall u t1 (b : bool) t3 P c3 rest',
    Forall settled P ->
    let body := "Y" :: digits (t1 ++ u ++ [b]) ++ marks t3 ++ "X"
                    :: P ++ marks (t1 ++ u ++ [negb b]) ++ digits c3 in
    halts (comparing t1 (u ++ b :: t3) P (u ++ negb b :: c3) ("Y" :: rest'))
      (outcome_of (body ++ "Y" :: rest', Py.len body, "Halt")).
Proof.
  induction u as [|a u IH]; intros t1 b t3 P c3 rest' HP body.
  - cbn [app]. apply compare_bit; [exact HP|]. rewrite eqb_negb.
    eapply halts_res;
      [|apply (stop_right R4 (Some "Halt") (Some (ObjStr "Halt")) "Y" "Halt"
                 eq_refl eq_refl eq_refl (digits c3)); all_cells].
    cbn [written negb Py.in_set verdicts existsb String.eqb Ascii.eqb
           Bool.eqb orb next_of outcome_of].
    replace (rev (digits c3) ++ mk (negb b) :: rev (marks t1) ++ rev P
               ++ "X" :: rev (marks t3) ++ dg b :: rev (digits t1) ++ ["Y"])
      with (rev body) by (subst body; tape_norm; reflexivity).
    rewrite cfg_rev, rev_involutive. reflexivity.
  - cbn [app]. apply round_match; [exact HP|].
    specialize (IH (t1 ++ [a]) b t3 P c3 rest' HP). cbn zeta in IH.
    subst body. rewrite <- !app_assoc in IH. exact IH.
Qed.

(** A differing bit in an earlier block: R4 runs to the separator, L1
    sweeps back relabelling the whole block and the target, and the
    comparison starts again on the next block. *)
Lemma mismatch_next :
  forall u t1 (b : bool) t3 P c3 rest' res,
    Forall settled P ->
    halts (cfg [] "Y"
             (marks (t1 ++ u ++ b :: t3) ++ "X"
                :: (P ++ marks (t1 ++ u ++ negb b :: c3) ++ ["X"]) ++ rest')
             (Some (ObjState R1))) res ->
    halts (comparing t1 (u ++ b :: t3) P (u ++ negb b :: c3) ("X" :: rest')) res.
Proof.
  induction u as [|a u IH]; intros t1 b t3 P c3 rest' res HP Hh.
  - cbn [app] in *. apply compare_bit; [exact HP|]. rewrite eqb_negb.
    apply (find_right R4 None (Some (ObjState L1)) "X" eq_refl eq_refl eq_refl
             (digits c3)); [all_cells|].
    cbn [written next_of].
    apply (halts_cfg_l _
             ((rev (digits c3) ++ mk (negb b) :: rev (marks t1) ++ rev P
                 ++ "X" :: rev (marks t3) ++ dg b :: rev (digits t1))
                ++ "Y" :: [])); [tape_norm; reflexivity|].
    apply sweep_left; [all_cells|].
    eapply halts_cfg_r; [|exact Hh].
    tape_norm. rewrite (relabel_all_settled P HP). reflexivity.
  - cbn [app]. apply round_match; [exact HP|].
    apply IH; [exact HP|]. eapply halts_cfg_r; [|exact Hh].
    rewrite <- !app_assoc. reflexivity.
Qed.

(** *** Bit lists *)

Lemma bits_split :
  forall t c : list bool,
    (List.length t <= List.length c)%nat ->
    (exists c3, c = t ++ c3) \/
    (exists u b t3 c3, t = u ++ b :: t3 /\ c = u ++ negb b :: c3).
Proof.
  induction t as [|a t IH]; intros c Hlen.
  - left. now exists c.
  - destruct c as [|b c]; [simpl in Hlen; lia|].
    destruct (Bool.eqb a b) eqn:E.
    + apply Bool.eqb_prop in E. subst b.
      destruct (IH c) as [[c3 ->]|(u & b & t3 & c3 & -> & ->)];
        [simpl in Hlen; lia| |].
      * left. now exists c3.
      * right. now exists (a :: u), b, t3, c3.
    + right. exists [], a, t, c. split; [reflexivity|].
      destruct a, b; simpl in *; congruence.
Qed.

Lemma common_prefix t c3 : common t (t ++ c3) = List.length t.
Proof.
  induction t as [|a t IH]; simpl; [now destruct c3|].
  now rewrite Bool.eqb_reflx, IH.
Qed.

Lemma common_differ u (b : bool) t3 c3 :
  common (u ++ b :: t3) (u ++ negb b :: c3) = List.length u.
Proof.
  induction u as [|a u IH]; simpl.
  - now rewrite eqb_negb.
  - now rewrite Bool.eqb_reflx, IH.
Qed.

Lemma begins_with_prefix t c3 : begins_with t (t ++ c3) = true.
Proof. unfold begins_with. rewrite common_prefix. apply Nat.eqb_refl. Qed.

Lemma begins_with_differ u (b : bool) t3 c3 :
  begins_with (u ++ b :: t3) (u ++ negb b :: c3) = false.
Proof.
  unfold begins_with. rewrite common_differ, length_app. simpl.
  apply Nat.eqb_neq. lia.
Qed.

Lemma firstn_upto {A : Type} (u : list A) (b : A) r :
  firstn (S (List.length u)) (u ++ b :: r) = u ++ [b].
Proof. induction u as [|a u IH]; simpl in *; [reflexivity|]. now rewrite IH. Qed.

Lemma skipn_upto {A : Type} (u : list A) (b : A) r :
  skipn (S (List.length u)) (u ++ b :: r) = r.
Proof. induction u as [|a u IH]; simpl in *; [reflexivity|]. exact IH. Qed.

Lemma skipn_exact {A : Type} (t c : list A) :
  skipn (List.length t) (t ++ c) = c.
Proof. induction t as [|a t IH]; simpl; [reflexivity|]. exact IH. Qed.

Lemma blocks_closing c cs : blocks c cs = digits c ++ closing cs.
Proof. destruct cs; reflexivity. Qed.

Lemma located_copy t P c cs :
  begins_with t c = true ->
  located t P c cs
  = ("Y" :: digits t ++ "X" :: P ++ marks t
         ++ digits (skipn (List.length t) c) ++ closing cs,
     Z.of_nat (List.length t) + 1, "Copy").
Proof. intros H. destruct cs; simpl; rewrite H; reflexivity. Qed.

(** *** The whole scan *)

(** From the start of the comparison with a block, with every earlier
    block settled, the run ends as [located] predicts. *)
Lemma scan_blocks (t : list bool) :
  forall cs c P,
    Forall settled P ->
    Forall (fun c => (List.length t <= List.length c)%nat) (c :: cs) ->
    halts (comparing [] t P c (closing cs)) (outcome_of (located t P c cs)).
Proof.
  induction cs as [|c' cs IH]; intros c P HP Hlen;
    inversion Hlen as [|? ? Hc Hcs]; subst;
    destruct (bits_split t c Hc) as [[c3 ->]|(u & b & t3 & c3 & -> & ->)].
  - rewrite located_copy by apply begins_with_prefix.
    rewrite skipn_exact. apply (candidate_copy t [] P c3 _ HP).
  - cbn [located]. rewrite begins_with_differ, common_differ.
    rewrite !firstn_upto, !skipn_upto.
    apply (mismatch_halt u [] b t3 P c3 [] HP).
  - rewrite located_copy by apply begins_with_prefix.
    rewrite skipn_exact. apply (candidate_copy t [] P c3 _ HP).
  - cbn [located]. rewrite begins_with_differ.
    cbn [closing]. apply (mismatch_next u [] b t3 P c3 _ _ HP).
    cbn [app]. eapply halts_same; [|apply (IH c' (P ++ marks (u ++ negb b :: c3) ++ ["X"]))].
    + unfold comparing. cbn [digits marks map app].
      rewrite blocks_closing, <- !app_assoc. reflexivity.
    + all_cells.
    + exact Hcs.
Qed.

Lemma index_from_skip x ws r i :
  Forall (fun s => s <> x) ws ->
  Py.index_from x (ws ++ x :: r) i = Ret (i + Py.len ws).
Proof.
  revert i. induction ws as [|s ws IH]; intros i H; simpl.
  - rewrite String.eqb_refl. unfold Py.len. simpl. f_equal. lia.
  - inversion H as [|? ? Hs Hws]; subst.
    destruct (String.eqb_spec s x); [contradiction|].
    rewrite IH by exact Hws. unfold Py.len. simpl List.length.
    f_equal. lia.
Qed.

(** Locator.start on a tape that opens with Y, a target and X, cursor on
    that X: the first sweep marks the target. *)
Lemma start_sweep self t r res :
  parse_string self = "Y" :: digits t ++ "X" :: r ->
  pointer self = Z.of_nat (List.length t) + 1 ->
  halts (cfg [] "Y" (marks t ++ "X" :: r) (Some (ObjState R1))) res ->
  returns (fun fuel => Locator_start fuel self) res.
Proof.
  intros Ht Hp Hh. unfold Locator_start. fold (halts (set_curr_state self (ObjState L1)) res).
  apply (halts_same _ (cfg (rev (digits t) ++ "Y" :: []) "X" r
                         (Some (ObjState L1)))).
  - destruct self as [T p cs]. simpl in Ht, Hp. subst T p.
    unfold set_curr_state, cfg, Py.len. simpl. f_equal.
    + tape_norm. reflexivity.
    + rewrite length_app, length_rev. unfold digits. rewrite length_map.
      simpl. lia.
  - apply sweep_left; [all_cells|].
    eapply halts_cfg_r; [|exact Hh]. tape_norm. reflexivity.
Qed.

End Machine.

(** ** The cursor stays on the tape, the tape keeps its length *)

Section Invariants.

Lemma is_left_cases st :
  (is_left st = true /\ (st = L1 \/ st = L2)) \/
  (is_left st = false /\ (st = R1 \/ st = R2 \/ st = R3 \/ st = R4)).
Proof. destruct st; cbv; tauto. Qed.

Lemma shift_left_pointer st c :
  is_left st = true ->
  State_shift st c = set_pointer c (Z.max (pointer c - 1) 0).
Proof.
  intros H. unfold State_shift. fold (is_left st). rewrite H.
  unfold and_or. f_equal.
  destruct (Z.leb_spec 0 (pointer c - 1));
    [destruct (Z.eqb_spec (pointer c - 1) 0)|]; lia.
Qed.

Lemma shift_right_pointer st c :
  is_left st = false -> 0 <= pointer c ->
  State_shift st c
  = set_pointer c (Z.min (pointer c + 1) (Py.len (parse_string c) - 1)).
Proof.
  intros H Hp. unfold State_shift. fold (is_left st). rewrite H.
  rewrite (right_of_not_left _ H). unfold and_or. f_equal.
  destruct (Z.ltb_spec (pointer c + 1) (Py.len (parse_string c)));
    [destruct (Z.eqb_spec (pointer c + 1) 0)|]; lia.
Qed.

Lemma shift_keeps_tape st c :
  parse_string (State_shift st c) = parse_string c /\
  curr_state (State_shift st c) = curr_state c.
Proof.
  unfold State_shift.
  destruct (String.prefix "L" (class_name st)); [split; reflexivity|].
  destruct (String.prefix "R" (class_name st)); split; reflexivity.
Qed.

Lemma cursor_ok_shift st c : cursor_ok c -> cursor_ok (State_shift st c).
Proof.
  intros [H0 H1]. unfold cursor_ok.
  destruct (is_left_cases st) as [[Hl _]|[Hr _]].
  - rewrite shift_left_pointer by exact Hl. simpl. lia.
  - rewrite shift_right_pointer by (exact Hr || exact H0). simpl. lia.
Qed.

Lemma under_cursor_ok c :
  cursor_ok c -> exists x, under_cursor c = Ret x /\ In x (parse_string c).
Proof.
  intros [H0 H1]. unfold under_cursor, Py.list_getitem.
  rewrite norm_index_in by exact (conj H0 H1).
  destruct (nth_error (parse_string c) (Z.to_nat (pointer c))) as [x|] eqn:E.
  - exists x. split; [reflexivity|]. eapply nth_error_In; exact E.
  - apply nth_error_None in E. unfold Py.len in H1. lia.
Qed.

(** What the tables can write and where they can lead. *)
Lemma table_entry st r w n :
  config_get (read_write_next st) r = Some (w, n) ->
  (is_verdict w = None ->
     (forall x, w = Some x -> String.length x = 1%nat /\
                             Py.in_set x verdicts = false) /\
     exists st', next_of st n = ObjState st') /\
  (forall v, is_verdict w = Some v ->
     (v = "Copy" \/ v = "Halt") /\ w = Some v /\
     Py.in_set v verdicts = true).
Proof.
  intros H. destruct st; cbn [read_write_next config_get] in H;
    repeat match type of H with
      | (if String.eqb ?a ?b then _ else _) = _ =>
          destruct (String.eqb a b)
      end;
    try discriminate; inversion H; subst; clear H;
    (split;
     [ intros Hv; cbv in Hv;
       first [ discriminate Hv
             | split; [intros x Hx; inversion Hx; subst; split; reflexivity
                      |eexists; reflexivity] ]
     | intros v Hv; cbv in Hv;
       first [ discriminate Hv
             | inversion Hv; subst; repeat split; auto ] ]).
Qed.

Lemma read_loop_sound st config :
  forall f read c r c',
    cursor_ok c ->
    read_loop f st config read c = Ret (r, c') ->
    cursor_ok c' /\ parse_string c' = parse_string c /\
    curr_state c' = curr_state c /\ config_mem config r = true.
Proof.
  induction f as [|f IH]; intros read c r c' Hc H; simpl in H.
  - destruct (config_mem config read) eqn:E; [|discriminate].
    inversion H; subst. auto.
  - destruct (config_mem config read) eqn:E.
    + inversion H; subst. auto.
    + destruct (Py.list_getitem _ _) as [x| |]; simpl in H; try discriminate.
      apply IH in H; [|apply cursor_ok_shift; exact Hc].
      destruct (shift_keeps_tape st c) as [Ht Hs].
      destruct H as (H1 & H2 & H3 & H4). rewrite H2, H3. auto.
Qed.

Lemma read_loop_never_raises st config :
  forall f read c e,
    cursor_ok c -> read_loop f st config read c <> Raise e.
Proof.
  induction f as [|f IH]; intros read c e Hc; simpl.
  - destruct (config_mem config read); discriminate.
  - destruct (config_mem config read); [discriminate|].
    destruct (under_cursor_ok _ (cursor_ok_shift st c Hc)) as (x & Hx & _).
    unfold under_cursor in Hx. rewrite Hx. simpl.
    apply IH, cursor_ok_shift, Hc.
Qed.

Lemma setitem_ok (T : list string) (p : Z) (w : string) :
  0 <= p < Py.len T ->
  exists T', Py.list_setitem T p w = Ret T' /\
             List.length T' = List.length T /\
             (cells_ok T -> String.length w = 1%nat -> cells_ok T').
Proof.
  intros Hp. unfold Py.list_setitem. rewrite norm_index_in by exact Hp.
  eexists. split; [reflexivity|]. split; [apply length_update|].
  generalize (Z.to_nat p). clear Hp. unfold cells_ok.
  induction T as [|h T IH]; intros j HT Hw; destruct j; simpl; auto;
    inversion HT; subst; constructor; auto.
Qed.

(** One State.process call from a context with the cursor in range:
    it raises nothing, and what it returns has the cursor in range, a tape
    of the same length made of one-character cells, and, unless the write
    is a verdict, a state object in [curr_state]. *)
Lemma State_process_sound st f c :
  cursor_ok c ->
  (forall e, State_process f st c <> Raise e) /\
  (forall w c', State_process f st c = Ret (w, c') ->
     cursor_ok c' /\
     List.length (parse_string c') = List.length (parse_string c) /\
     (cells_ok (parse_string c) -> cells_ok (parse_string c')) /\
     (is_verdict w = None -> exists st', curr_state c' = Some (ObjState st')) /\
     (forall v, is_verdict w = Some v -> v = "Copy" \/ v = "Halt")).
Proof.
  intros Hc. unfold State_process, State_read.
  destruct (read_loop f st (read_write_next st) None c) as [[r c1]| |] eqn:E.
  2:{ exfalso. exact (read_loop_never_raises _ _ _ _ _ e Hc E). }
  2:{ split; [discriminate|intros; discriminate]. }
  destruct (read_loop_sound _ _ _ _ _ _ _ Hc E) as (Hc1 & Ht & Hs & Hm).
  cbn [bind]. destruct r as [r|]; [|discriminate Hm].
  cbn [config_mem] in Hm.
  destruct (config_get (read_write_next st) r) as [[w n]|] eqn:G;
    [|discriminate Hm].
  destruct (table_entry _ _ _ _ G) as [Hnv Hv].
  assert (Hnext : forall c2, match n with
                   | Some n0 => set_curr_state c2 n0
                   | None => set_curr_state c2 (ObjState st)
                   end = set_curr_state c2 (next_of st n))
    by (intros; destruct n; reflexivity).
  destruct w as [x|].
  - destruct (Py.in_set x verdicts) eqn:V; cbn [negb].
    + cbn [bind]. rewrite Hnext. split; [discriminate|].
      intros w c' H; inversion H; subst. cbn.
      rewrite Ht. repeat split; auto; try apply Hc1.
      * intros Hn. destruct (Hnv Hn) as [Hx _].
        destruct (Hx x eq_refl) as [_ Hx']. congruence.
      * intros v Hv'. apply (Hv v Hv').
    + destruct (setitem_ok (parse_string c1) (pointer c1) x Hc1)
        as (T' & HT' & Hlen & Hcells).
      rewrite HT'. cbn [bind]. rewrite Hnext. split; [discriminate|].
      intros w c' H; inversion H; subst. cbn.
      unfold cursor_ok. cbn. unfold Py.len. rewrite Hlen, <- Ht.
      repeat split; auto; try apply Hc1.
      * intros HT. apply Hcells; [exact HT|].
        assert (Hn : is_verdict (Some x) = None).
        { unfold is_verdict.
          replace (Py.in_set x ["Halt"; "Copy"]) with (Py.in_set x verdicts);
            [now rewrite V|].
          unfold Py.in_set, verdicts. simpl.
          destruct (String.eqb x "Copy"), (String.eqb x "Halt"); reflexivity. }
        destruct (Hnv Hn) as [Hx _]. apply (Hx x eq_refl).
      * intros Hn. destruct (Hnv Hn) as [_ [st' Hst]]. exists st'.
        now rewrite Hst.
      * intros v Hv'. apply (Hv v Hv').
  - cbn [bind]. rewrite Hnext. split; [discriminate|].
    intros w c' H; inversion H; subst. cbn. rewrite Ht.
    repeat split; auto; try apply Hc1.
    + intros Hn. destruct (Hnv Hn) as [_ [st' Hst]]. exists st'.
      now rewrite Hst.
    + intros v Hv'. discriminate.
Qed.

(** Locator.process from a context with the cursor in range. *)
Lemma process_loop_sound :
  forall f w c,
    cursor_ok c ->
    (is_verdict w = None -> exists st, curr_state c = Some (ObjState st)) ->
    (forall v, is_verdict w = Some v -> v = "Copy" \/ v = "Halt") ->
    (forall e, process_loop f w c <> Raise e) /\
    (forall out v c', process_loop f w c = Ret ((out, v), c') ->
       cursor_ok c' /\
       List.length (parse_string c') = List.length (parse_string c) /\
       (cells_ok (parse_string c) -> cells_ok (parse_string c')) /\
       out = Py.join (parse_string c') /\
       (v = "Copy" \/ v = "Halt")).
Proof.
  induction f as [|f IH]; intros w c Hc Hst Hv; simpl;
    destruct (is_verdict w) as [v0|] eqn:V.
  - split; [discriminate|]. intros out v c' H; inversion H; subst.
    repeat split; auto; apply Hc.
  - split; [discriminate|discriminate].
  - split; [discriminate|]. intros out v c' H; inversion H; subst.
    repeat split; auto; apply Hc.
  - destruct (Hst eq_refl) as [st Hcs]. rewrite Hcs.
    destruct (State_process_sound st f c Hc) as [Hnr Hret].
    destruct (State_process f st c) as [[w1 c1]| |] eqn:E; cbn [bind].
    + destruct (Hret w1 c1 eq_refl) as (Hc1 & Hlen & Hcells & Hst1 & Hv1).
      destruct (IH w1 c1 Hc1 Hst1 Hv1) as [Hnr' Hret'].
      split; [exact Hnr'|]. intros out v c' H.
      destruct (Hret' out v c' H) as (H1 & H2 & H3 & H4 & H5).
      rewrite H2, Hlen. repeat split; auto; apply H1.
    + exfalso. exact (Hnr e eq_refl).
    + split; [discriminate|discriminate].
Qed.

(** *** Strings and lists of cells *)

Lemma string_length_app (a b : string) :
  String.length (a ++ b)%string = (String.length a + String.length b)%nat.
Proof. induction a as [|c a IH]; simpl; [reflexivity|]. now rewrite IH. Qed.

Lemma join_length T : cells_ok T -> String.length (Py.join T) = List.length T.
Proof.
  induction 1 as [|x T Hx _ IH]; simpl; [reflexivity|].
  now rewrite string_length_app, Hx, IH.
Qed.

Lemma list_of_str_cells s : cells_ok (Py.list_of_str s).
Proof. induction s; simpl; constructor; auto. Qed.

Lemma list_of_str_length s :
  List.length (Py.list_of_str s) = String.length s.
Proof. induction s as [|c s IH]; simpl; [reflexivity|]. now rewrite IH. Qed.

(** *** What construction establishes *)

Lemma bind_ret {A B : Type} (m : outcome A) (k : A -> outcome B) (b : B) :
  bind m k = Ret b -> exists a, m = Ret a /\ k a = Ret b.
Proof. destruct m; simpl; intros H; [eauto|discriminate|discriminate]. Qed.

Lemma assert_ret cond msg u : assert cond msg = Ret u -> cond = true.
Proof. destruct cond; [reflexivity|discriminate]. Qed.

Lemma str_getitem_first s x :
  Py.str_getitem s 0 = Ret x ->
  exists c s', s = String c s' /\ x = String c EmptyString.
Proof.
  destruct s as [|c s']; [discriminate|].
  unfold Py.str_getitem, Py.norm_index. cbn [String.length].
  change (0 <? 0) with false. cbn [orb].
  destruct (Z.leb_spec (Z.of_nat (S (String.length s'))) 0); [lia|].
  simpl. intros Hx; inversion Hx. eauto.
Qed.

Lemma validate_sound s T :
  _validate_string s = Ret T ->
  T = Py.list_of_str s /\ exists s', s = String "Y" s'.
Proof.
  unfold _validate_string. intros H.
  apply bind_ret in H as (first & Hf & H1).
  apply bind_ret in H1 as (last & Hl & H2).
  apply bind_ret in H2 as ([] & Ha & H3).
  apply bind_ret in H3 as (u0 & _ & H4).
  apply bind_ret in H4 as ([] & _ & H5).
  apply bind_ret in H5 as (u1 & _ & H6).
  apply bind_ret in H6 as ([] & _ & H7).
  inversion H7; subst. split; [reflexivity|].
  apply assert_ret, andb_prop in Ha as [Ha1 Ha2].
  apply String.eqb_eq in Ha1, Ha2. subst.
  apply str_getitem_first in Hf as (c & s' & -> & Hc).
  inversion Hc; subst. now exists s'.
Qed.

Lemma index_from_sound x l :
  forall i p,
    Py.index_from x l i = Ret p ->
    exists pre post, l = pre ++ x :: post /\ ~ In x pre /\ p = i + Py.len pre.
Proof.
  induction l as [|y l IH]; intros i p H; simpl in H; [discriminate|].
  destruct (String.eqb_spec y x).
  - inversion H; subst. exists [], l. unfold Py.len. simpl.
    repeat split; [tauto|lia].
  - apply IH in H as (pre & post & -> & Hn & ->).
    exists (y :: pre), post. unfold Py.len. simpl List.length.
    repeat split; [|lia]. intros [->|Hin]; [congruence|tauto].
Qed.

Lemma init_sound s self :
  __init__ s = Ret self ->
  _validate_string s = Ret (parse_string self) /\
  Py.list_index "X" (parse_string self) = Ret (pointer self) /\
  curr_state self = None.
Proof.
  unfold __init__. intros H.
  apply bind_ret in H as (T & HT & H1).
  apply bind_ret in H1 as (p & Hp & H2).
  inversion H2; subst. auto.
Qed.

(** After construction the cursor is on the first X, which is not the
    first cell. *)
Lemma init_cursor s self :
  __init__ s = Ret self ->
  exists pre y post,
    parse_string self = pre ++ y :: "X" :: post /\
    ~ In "X" (pre ++ [y]) /\
    pointer self = Py.len pre + 1.
Proof.
  intros H. apply init_sound in H as (Hv & Hi & _).
  apply validate_sound in Hv as (HT & s' & ->).
  apply index_from_sound in Hi as (pre & post & Hpre & Hn & Hp).
  destruct pre as [|a pre] using rev_ind.
  - rewrite HT in Hpre. simpl in Hpre. discriminate.
  - clear IHpre. exists pre, a, post. rewrite Hpre, <- app_assoc.
    split; [reflexivity|]. split; [exact Hn|].
    rewrite Hp. unfold Py.len. rewrite length_app. simpl. lia.
Qed.

Lemma init_cursor_ok s self : __init__ s = Ret self -> cursor_ok self.
Proof.
  intros H. apply init_cursor in H as (pre & y & post & Ht & _ & Hp).
  unfold cursor_ok. rewrite Ht, Hp. unfold Py.len.
  rewrite length_app. simpl. lia.
Qed.

End Invariants.

(** ** State.read as a search along the shifts *)

Section Reading.

Lemma iter_shift_first k st c :
  iter_shift k st (State_shift st c) = iter_shift (S k) st c.
Proof. induction k as [|k IH]; simpl; [reflexivity|]. now rewrite IH. Qed.

Lemma State_read_unfold st f c :
  cursor_ok c ->
  exists x,
    under_cursor (State_shift st c) = Ret x /\
    State_read (S f) st c
    = if accepts st x then Ret (Some x, State_shift st c)
      else State_read f st (State_shift st c).
Proof.
  intros Hc.
  destruct (under_cursor_ok _ (cursor_ok_shift st c Hc)) as (x & Hx & _).
  exists x. split; [exact Hx|].
  unfold State_read. cbn [read_loop config_mem].
  unfold under_cursor in Hx. rewrite Hx. cbn [bind].
  unfold accepts. destruct f; cbn [read_loop];
    destruct (config_mem (read_write_next st) (Some x)); reflexivity.
Qed.

(** State.read returns exactly when some number [k >= 1] of shifts lands
    on a key of the table and no smaller positive number does; it returns
    that key and leaves the cursor there. *)
Lemma State_read_spec st :
  forall fuel c r c',
    cursor_ok c ->
    (State_read fuel st c = Ret (r, c') <->
     exists k sym,
       (1 <= k <= fuel)%nat /\ c' = iter_shift k st c /\ r = Some sym /\
       under_cursor c' = Ret sym /\ accepts st sym = true /\
       forall j, (1 <= j < k)%nat ->
         exists x, under_cursor (iter_shift j st c) = Ret x /\
                   accepts st x = false).
Proof.
  induction fuel as [|f IH]; intros c r c' Hc.
  - split.
    + unfold State_read. simpl. discriminate.
    + intros (k & sym & Hk & _). lia.
  - destruct (State_read_unfold st f c Hc) as (x & Hx & ->).
    destruct (accepts st x) eqn:A.
    + split.
      * intros H; inversion H; subst. exists 1%nat, x.
        repeat split; auto; lia.
      * intros (k & sym & Hk & -> & -> & Hu & Ha & Hlt).
        destruct k as [|[|k]]; [lia| |].
        -- simpl in *. congruence.
        -- destruct (Hlt 1%nat ltac:(lia)) as (x' & Hx' & Ha').
           simpl in Hx'. congruence.
    + rewrite (IH (State_shift st c) r c' (cursor_ok_shift st c Hc)).
      split.
      * intros (k & sym & Hk & -> & -> & Hu & Ha & Hlt).
        exists (S k), sym. rewrite <- iter_shift_first.
        repeat split; auto; try lia.
        intros [|[|j]] Hj; [lia| |].
        -- exists x. now split.
        -- rewrite <- iter_shift_first. apply Hlt. lia.
      * intros (k & sym & Hk & -> & -> & Hu & Ha & Hlt).
        destruct k as [|[|k]]; [lia| |].
        -- simpl in Hu. congruence.
        -- exists (S k), sym. rewrite iter_shift_first.
           repeat split; auto; try lia.
           intros j Hj. rewrite iter_shift_first. apply Hlt. lia.
Qed.

Lemma iter_keeps_tape k st c :
  parse_string (iter_shift k st c) = parse_string c /\
  curr_state (iter_shift k st c) = curr_state c.
Proof.
  induction k as [|k [IH1 IH2]]; simpl; [split; reflexivity|].
  destruct (shift_keeps_tape st (iter_shift k st c)) as [-> ->]. now split.
Qed.

Lemma cursor_ok_iter k st c : cursor_ok c -> cursor_ok (iter_shift k st c).
Proof. intros H. induction k; simpl; [exact H|]. now apply cursor_ok_shift. Qed.

(** Left shifts from a cursor that is not at 0 stay strictly left of it. *)
Lemma iter_left_bound st c k :
  is_left st = true -> 0 < pointer c ->
  pointer (iter_shift (S k) st c) <= pointer c - 1.
Proof.
  intros E Hp. induction k as [|k IH]; simpl in *.
  - rewrite shift_left_pointer by exact E. simpl. lia.
  - rewrite shift_left_pointer by exact E. simpl. lia.
Qed.

(** Right shifts from a cursor that is not at the last index stay strictly
    right of it. *)
Lemma iter_right_bound st c k :
  is_left st = false -> cursor_ok c ->
  pointer c < Py.len (parse_string c) - 1 ->
  pointer c + 1 <= pointer (iter_shift (S k) st c).
Proof.
  intros E Hc Hp. induction k as [|k IH].
  - simpl. rewrite shift_right_pointer by (exact E || apply Hc). simpl. lia.
  - change (iter_shift (S (S k)) st c)
      with (State_shift st (iter_shift (S k) st c)).
    rewrite shift_right_pointer; [|exact E|destruct Hc; lia].
    cbn [set_pointer pointer].
    destruct (iter_keeps_tape (S k) st c) as [-> _]. lia.
Qed.

(** When the cursor has room to move in the direction of the state, no
    later position of the search is the entry position again. *)
Lemma iter_shift_leaves st c :
  cursor_ok c ->
  (is_left st = true -> 0 < pointer c) ->
  (is_left st = false -> pointer c < Py.len (parse_string c) - 1) ->
  forall j, (1 <= j)%nat -> pointer (iter_shift j st c) <> pointer c.
Proof.
  intros Hc Hl Hr [|j] Hj; [lia|].
  destruct (is_left_cases st) as [[E _]|[E _]].
  - pose proof (iter_left_bound st c j E (Hl E)). lia.
  - pose proof (iter_right_bound st c j E Hc (Hr E)). lia.
Qed.

End Reading.

(** ** Where the run calls State.read *)

Section Entries.

(** One State.process call, spelled out: the search of State.read ends
    after [k >= 1] shifts on a key [sym]; the entry of [sym] decides the
    write (at the cursor, in place) and the next state. *)
Lemma State_process_spec st fuel c w c' :
  cursor_ok c ->
  State_process fuel st c = Ret (w, c') ->
  exists k sym n,
    (1 <= k)%nat /\
    under_cursor (iter_shift k st c) = Ret sym /\
    config_get (read_write_next st) sym = Some (w, n) /\
    pointer c' = pointer (iter_shift k st c) /\
    curr_state c' = Some (next_of st n) /\
    (parse_string c' = parse_string c \/
     (w <> None /\
      exists x, parse_string c'
                = Py.update (parse_string c) (Z.to_nat (pointer c')) x)).
Proof.
  intros Hc H. unfold State_process in H.
  destruct (State_read fuel st c) as [[r c1]| |] eqn:E; try discriminate.
  apply (State_read_spec st fuel c r c1 Hc) in E
    as (k & sym & Hk & -> & -> & Hu & Ha & _).
  cbn [bind] in H. unfold accepts in Ha. cbn [config_mem] in Ha.
  destruct (config_get (read_write_next st) sym) as [[w0 n]|] eqn:G;
    [|discriminate].
  exists k, sym, n.
  destruct (iter_keeps_tape k st c) as [Ht _].
  pose proof (cursor_ok_iter k st c Hc) as Hck.
  assert (Hnext : forall c2, match n with
                   | Some n0 => set_curr_state c2 n0
                   | None => set_curr_state c2 (ObjState st)
                   end = set_curr_state c2 (next_of st n))
    by (intros; destruct n; reflexivity).
  destruct w0 as [x|].
  - destruct (negb (Py.in_set x verdicts)).
    + unfold Py.list_setitem in H.
      rewrite norm_index_in in H by exact Hck. cbn [bind] in H.
      rewrite Hnext in H. inversion H; subst. cbn.
      repeat split; auto; try lia. right. split; [discriminate|].
      exists x. now rewrite Ht.
    + cbn [bind] in H. rewrite Hnext in H. inversion H; subst. cbn.
      repeat split; auto; lia.
  - cbn [bind] in H. rewrite Hnext in H. inversion H; subst. cbn.
    repeat split; auto; lia.
Qed.

(** Reading the tables by the delimiter Y: only Y is never overwritten,
    a Left state is entered on a cell other than Y, and a Right state is
    entered on a cell other than Y or from a Left state. *)
Lemma table_moves st sym w n :
  config_get (read_write_next st) sym = Some (w, n) ->
  is_verdict w = None ->
  exists st',
    next_of st n = ObjState st' /\
    (w <> None -> sym <> "Y") /\
    (is_left st' = true -> sym <> "Y") /\
    (is_left st' = false -> sym <> "Y" \/ is_left st = true).
Proof.
  intros H Hv. destruct st; cbn [read_write_next config_get] in H;
    repeat match type of H with
      | (if String.eqb ?a ?b then _ else _) = _ =>
          destruct (String.eqb_spec a b); [subst|]
      end;
    try discriminate; inversion H; subst; clear H;
    try discriminate Hv;
    (eexists; split; [reflexivity|]);
    repeat split; intros; try discriminate; try congruence;
    first [left; discriminate | right; reflexivity].
Qed.

Lemma nth_error_update {A : Type} (l : list A) (j i : nat) (x : A) :
  i <> j -> nth_error (Py.update l j x) i = nth_error l i.
Proof.
  revert j i. induction l as [|h l IH]; intros [|j] [|i] H; simpl; auto.
  - congruence.
Qed.

Lemma under_cursor_nth c sym :
  cursor_ok c ->
  under_cursor c = Ret sym ->
  nth_error (parse_string c) (Z.to_nat (pointer c)) = Some sym.
Proof.
  intros Hc. unfold under_cursor, Py.list_getitem.
  rewrite norm_index_in by exact Hc.
  destruct (nth_error _ _); [|discriminate]. congruence.
Qed.

(** A cell that does not hold Y on a delimited tape is neither the first
    nor the last one. *)
Lemma inner_cell c sym :
  cursor_ok c -> delimited (parse_string c) ->
  under_cursor c = Ret sym -> sym <> "Y" ->
  0 < pointer c < Py.len (parse_string c) - 1.
Proof.
  intros Hc [H0 Hl] Hu Hy. apply under_cursor_nth in Hu; [|exact Hc].
  destruct Hc as [Hc0 Hc1]. unfold Py.len in *.
  assert (Z.to_nat (pointer c) <> 0%nat) by congruence.
  assert (Z.to_nat (pointer c) <> (List.length (parse_string c) - 1)%nat)
    by congruence.
  lia.
Qed.

(** One State.process call whose write is no verdict keeps the tape
    delimited and leaves the cursor with room to move in the direction of
    the next state. *)
Lemma entry_step st fuel c w c' :
  cursor_ok c -> delimited (parse_string c) ->
  (is_left st = true -> 0 < pointer c) ->
  (is_left st = false -> pointer c < Py.len (parse_string c) - 1) ->
  State_process fuel st c = Ret (w, c') ->
  is_verdict w = None ->
  cursor_ok c' /\ delimited (parse_string c') /\ room c'.
Proof.
  intros Hc Hd Hl Hr Hp Hv.
  destruct (State_process_sound st fuel c Hc) as [_ Hs].
  destruct (Hs w c' Hp) as (Hc' & Hlen & _).
  destruct (State_process_spec st fuel c w c' Hc Hp)
    as (k & sym & n & Hk & Hu & Hg & Hptr & Hst & Htape).
  destruct (table_moves st sym w n Hg Hv) as (st' & Hn & Hw & Hleft & Hright).
  destruct (iter_keeps_tape k st c) as [Ht _].
  pose proof (cursor_ok_iter k st c Hc) as Hck.
  assert (Hd' : delimited (parse_string (iter_shift k st c)))
    by (rewrite Ht; exact Hd).
  assert (Hinner : sym <> "Y" ->
            0 < pointer c' < Py.len (parse_string c) - 1).
  { intros Hy. rewrite Hptr, <- Ht.
    apply (inner_cell _ sym Hck Hd' Hu Hy). }
  split; [exact Hc'|]. split.
  - destruct Htape as [->|(Hwn & x & ->)]; [exact Hd|].
    specialize (Hinner (Hw Hwn)). destruct Hd as [H0 Hlast].
    unfold delimited, Py.len in *. rewrite length_update.
    rewrite !nth_error_update by lia. now split.
  - exists st'. rewrite Hst, Hn. split; [reflexivity|].
    assert (Hlen' : Py.len (parse_string c') = Py.len (parse_string c))
      by (unfold Py.len; now rewrite Hlen).
    rewrite Hlen'. split.
    + intros E. apply Hinner, Hleft, E.
    + intros E. destruct (Hright E) as [Hy|El]; [apply Hinner, Hy|].
      rewrite Hptr. destruct k as [|k]; [lia|].
      pose proof (iter_left_bound st c k El (Hl El)).
      destruct Hc. lia.
Qed.

Lemma last_cell s c :
  last_char s = Some c ->
  nth_error (Py.list_of_str s) (List.length (Py.list_of_str s) - 1)
  = Some (String c EmptyString).
Proof.
  induction s as [|d s IH]; [discriminate|].
  destruct s as [|e s].
  - simpl. intros H; inversion H. reflexivity.
  - intros H. change (last_char (String d (String e s)))
      with (last_char (String e s)) in H.
    specialize (IH H). simpl in *. rewrite Nat.sub_0_r in IH. exact IH.
Qed.

End Entries.

(** ** Runs that never return *)

Section Divergence.

(** A right-moving state at the last cell, which is no key of its table,
    sees that cell again after every shift. *)
Lemma stuck_right st l x cs :
  is_left st = false -> skipped st x ->
  forall f, State_process f st (cfg l x [] cs) = OutOfFuel.
Proof.
  intros Hd Hs. induction f as [|f IH]; [reflexivity|].
  rewrite (State_process_skip st f _ x).
  - rewrite shift_right_end by exact Hd. exact IH.
  - rewrite shift_right_end by exact Hd. apply under_cursor_cfg.
  - exact Hs.
Qed.

(** The non-terminating scan: a right-moving state with no key of its
    table anywhere to the right of the cursor never returns. *)
Lemma never_found st cs :
  is_left st = false ->
  forall r l x,
    Forall (skipped st) r -> (r = [] -> skipped st x) ->
    forall f, State_process f st (cfg l x r cs) = OutOfFuel.
Proof.
  intros Hd. induction r as [|y r IH]; intros l x Hr Hx f.
  - apply stuck_right; auto.
  - inversion Hr as [|? ? Hy Hr']; subst.
    destruct f as [|f]; [reflexivity|].
    rewrite (State_process_skip st f _ y).
    + rewrite shift_right_cfg by exact Hd. apply IH; auto.
    + rewrite shift_right_cfg by exact Hd. apply under_cursor_cfg.
    + exact Hy.
Qed.

Lemma diverges_stuck c st :
  curr_state c = Some (ObjState st) ->
  (forall f, State_process f st c = OutOfFuel) ->
  forall f, process_loop f None c = OutOfFuel.
Proof.
  intros Hc Hs [|f]; [reflexivity|].
  rewrite (process_loop_unfold _ _ _ Hc), Hs. reflexivity.
Qed.

Lemma diverges_next c c' st w f0 :
  curr_state c = Some (ObjState st) ->
  State_process f0 st c = Ret (w, c') ->
  is_verdict w = None ->
  (forall f, process_loop f None c' = OutOfFuel) ->
  forall f, process_loop f None c = OutOfFuel.
Proof.
  intros Hc Hp Hw Hd [|f]; [reflexivity|].
  rewrite (process_loop_unfold _ _ _ Hc).
  destruct (State_process f st c) as [[w1 c1]| |] eqn:E; cbn [bind fst snd].
  - assert (E' : State_process (Nat.max f f0) st c = Ret (w1, c1))
      by (apply (State_process_mono st f); [exact E|congruence|lia]).
    rewrite (State_process_mono st f0 (Nat.max f f0) _ _ Hp) in E'
      by (congruence || lia).
    inversion E'; subst. rewrite process_loop_restart by exact Hw.
    apply Hd.
  - assert (E' : State_process (Nat.max f f0) st c = Raise e)
      by (apply (State_process_mono st f); [exact E|congruence|lia]).
    rewrite (State_process_mono st f0 (Nat.max f f0) _ _ Hp) in E'
      by (congruence || lia).
    discriminate.
  - reflexivity.
Qed.

(** On "Y11X100X1Y" the second block runs out of bits while the target
    still has one to compare: R3 walks to the closing Y and stays there. *)
Lemma short_block_diverges :
  forall fuel, run fuel "Y11X100X1Y" = OutOfFuel.
Proof.
  intros fuel. unfold run.
  assert (Hi : __init__ "Y11X100X1Y"
               = Ret (mkLocator (Py.list_of_str "Y11X100X1Y") 3 None))
    by reflexivity.
  rewrite Hi. cbn [bind]. unfold Locator_start, Locator_process.
  enough (H : forall f,
             process_loop f None
               (set_curr_state
                  (mkLocator (Py.list_of_str "Y11X100X1Y") 3 None)
                  (ObjState L1)) = OutOfFuel)
    by (rewrite H; reflexivity).
  do 17 (eapply (diverges_next _ _ _ _ 12%nat);
         [reflexivity|cbv; reflexivity|reflexivity|]).
  apply (diverges_stuck _ R3); [reflexivity|].
  apply (never_found R3 (Some (ObjState R3)) eq_refl
           ["X"; "B"; "A"; "A"; "X"; "B"; "Y"] ["1"; "Y"] "1").
  - repeat constructor.
  - discriminate.
Qed.

End Divergence.

(** ** From construction to the run *)

Section Running.

Lemma run_mono s :
  forall f f' o, run f s = o -> o <> OutOfFuel -> (f <= f')%nat -> run f' s = o.
Proof.
  intros f f' o H Ho Hle. unfold run, Locator_start, Locator_process in *.
  destruct (__init__ s) as [self| |]; cbn [bind] in *; try exact H.
  destruct (process_loop f None (set_curr_state self (ObjState L1)))
    as [[res c']| |] eqn:E.
  - rewrite (process_loop_mono f f' _ _ _ E) by (congruence || lia). exact H.
  - rewrite (process_loop_mono f f' _ _ _ E) by (congruence || lia). exact H.
  - simpl in H. congruence.
Qed.

Lemma run_returns s self result self' :
  __init__ s = Ret self ->
  returns (fun fuel => Locator_start fuel self) (result, self') ->
  returns (fun fuel => run fuel s) result.
Proof.
  intros Hi [f Hf]. exists f. intros f' Hle. unfold run.
  rewrite Hi. cbn [bind]. rewrite (Hf f' Hle). reflexivity.
Qed.

Lemma init_on_tape s t r :
  _validate_string s = Ret ("Y" :: digits t ++ "X" :: r) ->
  __init__ s
  = Ret (mkLocator ("Y" :: digits t ++ "X" :: r)
           (Z.of_nat (List.length t) + 1) None).
Proof.
  intros Hv. unfold __init__. rewrite Hv. cbn [bind].
  unfold Py.list_index.
  change ("Y" :: digits t ++ "X" :: r) with (("Y" :: digits t) ++ "X" :: r).
  rewrite index_from_skip.
  - cbn [bind]. unfold Py.len, digits. cbn [List.length].
    rewrite length_map, Nat2Z.inj_succ, Z.add_1_r. reflexivity.
  - constructor; [discriminate|]. apply Forall_digits, digit_not_X.
Qed.

(** The run on a well-formed tape whose candidates are all at least as
    long as the target ends as [located] predicts. *)
Lemma start_located s t c cs :
  _validate_string s = Ret (input_tape t c cs) ->
  Forall (fun c' => (List.length t <= List.length c')%nat) (c :: cs) ->
  exists self,
    __init__ s = Ret self /\
    parse_string self = input_tape t c cs /\
    returns (fun fuel => Locator_start fuel self)
      (outcome_of (located t [] c cs)).
Proof.
  intros Hv Hlen. eexists. split; [apply init_on_tape; exact Hv|].
  split; [reflexivity|].
  apply (start_sweep _ t (blocks c cs)); [reflexivity|reflexivity|].
  rewrite blocks_closing.
  exact (scan_blocks t cs c [] (Forall_nil _) Hlen).
Qed.

Lemma located_verdict t :
  forall cs c P,
    snd (located t P c cs) = "Copy" \/ snd (located t P c cs) = "Halt".
Proof.
  induction cs as [|c' cs IH]; intros c P; cbn [located];
    destruct (begins_with t c); cbn [snd]; auto.
Qed.

Lemma located_copy_iff t :
  forall cs c P,
    snd (located t P c cs) = "Copy" <->
    Exists (fun c' => begins_with t c' = true) (c :: cs).
Proof.
  induction cs as [|c' cs IH]; intros c P; cbn [located];
    destruct (begins_with t c) eqn:E; cbn [snd].
  - split; [intros _; now constructor|reflexivity].
  - split; [discriminate|].
    intros H; inversion H as [? ? H1|? ? H1]; subst;
      [congruence|inversion H1].
  - split; [intros _; now constructor|reflexivity].
  - rewrite IH. split; [intros H; now constructor 2|].
    intros H; inversion H as [? ? H1|? ? H1]; subst; [congruence|exact H1].
Qed.

Lemma located_halt t :
  forall cs c P,
    Forall (fun c' => begins_with t c' = false) (c :: cs) ->
    exists body, located t P c cs = (body ++ ["Y"], Py.len body, "Halt").
Proof.
  induction cs as [|c' cs IH]; intros c P H;
    inversion H as [|? ? Hc Hcs]; subst; cbn [located]; rewrite Hc.
  - eexists. reflexivity.
  - apply IH. exact Hcs.
Qed.

End Running.

(** ** What Locator._validate_string accepts *)

Section Validation.

Lemma split_nonempty sep s : Py.split sep s <> [].
Proof.
  destruct s as [|c s]; simpl; [discriminate|].
  destruct (Ascii.eqb c sep); [discriminate|].
  destruct (Py.split sep s); discriminate.
Qed.

(** [Py.char_in c u = false] reads: the character [c] does not occur in
    [u]. *)
Lemma split_inv sep :
  forall s u us,
    Py.split sep s = u :: us ->
    Py.char_in sep u = false /\
    ((us = [] /\ s = u) \/
     (exists tl, s = (u ++ String sep tl)%string /\ us = Py.split sep tl)).
Proof.
  induction s as [|c s IH]; intros u us H.
  - simpl in H. inversion H; subst. split; [reflexivity|]. left. auto.
  - simpl in H. destruct (Ascii.eqb c sep) eqn:E.
    + inversion H; subst. apply Ascii.eqb_eq in E. subst c.
      split; [reflexivity|]. right. exists s. auto.
    + destruct (Py.split sep s) as [|u' us'] eqn:E2.
      { exfalso. exact (split_nonempty _ _ E2). }
      inversion H; subst.
      destruct (IH u' us eq_refl) as [Hn Hc].
      split.
      * simpl. rewrite Hn, Ascii.eqb_sym, E. reflexivity.
      * destruct Hc as [[-> ->]|[tl [-> ->]]].
        -- left. auto.
        -- right. exists tl. auto.
Qed.

Lemma split_app sep :
  forall u tl,
    Py.char_in sep u = false ->
    Py.split sep (u ++ String sep tl) = u :: Py.split sep tl.
Proof.
  induction u as [|c u IH]; intros tl H; simpl.
  - rewrite Ascii.eqb_refl. reflexivity.
  - simpl in H. apply orb_false_elim in H as [H1 H2].
    rewrite Ascii.eqb_sym, H1, (IH tl H2). reflexivity.
Qed.

Lemma split_whole sep :
  forall u, Py.char_in sep u = false -> Py.split sep u = [u].
Proof.
  induction u as [|c u IH]; intros H; simpl; [reflexivity|].
  simpl in H. apply orb_false_elim in H as [H1 H2].
  rewrite Ascii.eqb_sym, H1, (IH H2). reflexivity.
Qed.

Lemma append_empty_r (u : string) : (u ++ EmptyString)%string = u.
Proof. induction u; simpl; congruence. Qed.

Lemma get_last :
  forall s, s <> EmptyString ->
    String.get (String.length s - 1) s = last_char s.
Proof.
  induction s as [|c s IH]; intros H; [congruence|].
  destruct s as [|d s]; [reflexivity|].
  replace (String.length (String c (String d s)) - 1)%nat
    with (S (String.length (String d s) - 1)) by (simpl; lia).
  cbn [String.get last_char]. apply IH. discriminate.
Qed.

Lemma str_getitem_last s x :
  Py.str_getitem s (-1) = Ret x <->
  exists c, last_char s = Some c /\ x = String c EmptyString.
Proof.
  destruct s as [|c0 s0].
  - split; [discriminate|]. intros (c & H & _). discriminate.
  - set (s := String c0 s0).
    assert (Hn : Py.norm_index (String.length s) (-1)
                 = Some (String.length s - 1)%nat).
    { unfold Py.norm_index. change (-1 <? 0) with true. cbv iota.
      assert (0 < Z.of_nat (String.length s)) by (subst s; simpl; lia).
      destruct (Z.ltb_spec (-1 + Z.of_nat (String.length s)) 0); [lia|].
      destruct (Z.leb_spec (Z.of_nat (String.length s))
                  (-1 + Z.of_nat (String.length s))); [lia|].
      cbn [orb]. f_equal. lia. }
    unfold Py.str_getitem. rewrite Hn, get_last by (subst s; discriminate).
    destruct (last_char s) as [c|].
    + split.
      * intros H; inversion H. eauto.
      * intros (c' & H & ->). inversion H. reflexivity.
    + split; [discriminate|]. intros (c & H & _). discriminate.
Qed.

Lemma str_getitem_first_iff s x :
  Py.str_getitem s 0 = Ret x <->
  exists c s', s = String c s' /\ x = String c EmptyString.
Proof.
  split; [apply str_getitem_first|].
  intros (c & s' & -> & ->).
  unfold Py.str_getitem, Py.norm_index. cbn [String.length].
  change (0 <? 0) with false. cbn [orb].
  destruct (Z.leb_spec (Z.of_nat (S (String.length s'))) 0); [lia|].
  reflexivity.
Qed.

Lemma getitem_0 {A : Type} (x : A) l : Py.list_getitem (x :: l) 0 = Ret x.
Proof.
  unfold Py.list_getitem. rewrite norm_index_in; [reflexivity|].
  simpl List.length. lia.
Qed.

Lemma getitem_1 {A : Type} (x y : A) l :
  Py.list_getitem (x :: y :: l) 1 = Ret y.
Proof.
  unfold Py.list_getitem. rewrite norm_index_in; [reflexivity|].
  simpl List.length. lia.
Qed.

Lemma truthy_length s : Py.truthy s = (0 <? Py.len_str s).
Proof. destruct s; reflexivity. Qed.

Lemma index_from_total x :
  forall l i, In x l -> exists p, Py.index_from x l i = Ret p.
Proof.
  induction l as [|y l IH]; intros i H; [contradiction|]. simpl.
  destruct (String.eqb_spec y x); [eauto|].
  destruct H as [->|H]; [congruence|]. apply IH, H.
Qed.

Lemma list_of_str_app a b :
  Py.list_of_str (a ++ b) = Py.list_of_str a ++ Py.list_of_str b.
Proof. induction a as [|c a IH]; simpl; [reflexivity|]. now rewrite IH. Qed.

(** The validation succeeds exactly on the strings of the accepted
    shape. *)
Lemma validate_iff s :
  _validate_string s = Ret (Py.list_of_str s) <-> accepted_shape s.
Proof.
  unfold _validate_string, accepted_shape. split.
  - intros H.
    apply bind_ret in H as (first & Hf & H1).
    apply bind_ret in H1 as (last & Hl & H2).
    apply bind_ret in H2 as ([] & Ha & H3).
    apply bind_ret in H3 as (u0 & Hu0 & H4).
    apply bind_ret in H4 as ([] & Hb & H5).
    apply bind_ret in H5 as (u1 & Hu1 & H6).
    apply bind_ret in H6 as ([] & Hc & _).
    apply assert_ret, andb_prop in Ha as [Ha1 Ha2].
    apply String.eqb_eq in Ha1, Ha2. subst first last.
    apply assert_ret, andb_prop in Hb as [Hb1 _].
    apply assert_ret, andb_prop in Hc as [Hc1 Hc2].
    apply Z.ltb_lt in Hb1, Hc1, Hc2. unfold Py.len, Py.len_str in *.
    destruct (Py.split "X" s) as [|v0 vs] eqn:E; [simpl in Hb1; lia|].
    rewrite getitem_0 in Hu0. inversion Hu0; subst v0.
    destruct vs as [|v1 vs]; [simpl in Hb1; lia|].
    rewrite getitem_1 in Hu1. inversion Hu1; subst v1.
    destruct (split_inv _ _ _ _ E) as [Hn0 [[Hx _]|[tl [Hs Htl]]]];
      [discriminate|].
    symmetry in Htl.
    destruct (split_inv _ _ _ _ Htl) as [Hn1 Hrest].
    assert (Hshape : exists rest,
               tl = (u1 ++ rest)%string /\
               (rest = EmptyString \/ exists rest', rest = String "X" rest')).
    { destruct Hrest as [[_ ->]|[tl' [-> _]]].
      - exists EmptyString. split; [|now left].
        symmetry. apply append_empty_r.
      - exists (String "X" tl'). split; [reflexivity|right; eauto]. }
    destruct Hshape as (rest & -> & Hrest').
    exists u0, u1, rest. repeat split; auto; try lia.
    + apply str_getitem_first in Hf as (c & s' & Hs' & Hc').
      inversion Hc'; subst c. eauto.
    + apply str_getitem_last in Hl as (c & Hlc & Hc').
      inversion Hc'; subst c. exact Hlc.
  - intros (u0 & u1 & rest & Hs & Hn0 & Hn1 & Hrest & [body Hy] & Hlast & Hlen).
    assert (Hf : Py.str_getitem s 0 = Ret "Y")
      by (apply str_getitem_first_iff; eauto).
    assert (Hl : Py.str_getitem s (-1) = Ret "Y")
      by (apply str_getitem_last; eauto).
    rewrite Hf, Hl. cbn [bind assert String.eqb Ascii.eqb Bool.eqb andb].
    assert (E : exists more, Py.split "X" s = u0 :: u1 :: more).
    { rewrite Hs, split_app by exact Hn0.
      destruct Hrest as [->|[rest' ->]].
      - rewrite append_empty_r. exists []. f_equal.
        apply split_whole. exact Hn1.
      - eexists. rewrite split_app by exact Hn1. reflexivity. }
    destruct E as [more E].
    assert (T1 : (1 <? Py.len (u0 :: u1 :: more)) = true)
      by (apply Z.ltb_lt; unfold Py.len; simpl List.length; lia).
    assert (T2 : (0 <? Py.len_str (Py.strip "Y" u0)) = true)
      by (apply Z.ltb_lt; unfold Py.len_str; lia).
    assert (T3 : (Py.len_str (Py.strip "Y" u0) <? Py.len_str u1) = true)
      by (apply Z.ltb_lt; unfold Py.len_str; lia).
    cbv zeta. rewrite E, getitem_0. cbn [bind].
    rewrite truthy_length, T1, T2. cbn [andb]. unfold assert at 1.
    cbn [bind]. rewrite getitem_1. cbn [bind]. rewrite T3. reflexivity.
Qed.

(** Construction involves no loop of the module: it returns or raises. *)
Lemma bind_total {A B : Type} (m : outcome A) (k : A -> outcome B) :
  m <> OutOfFuel -> (forall a, k a <> OutOfFuel) -> bind m k <> OutOfFuel.
Proof. destruct m; simpl; auto; discriminate. Qed.

Lemma init_total s : __init__ s <> OutOfFuel.
Proof.
  assert (G1 : forall (x : string) i, Py.str_getitem x i <> OutOfFuel).
  { intros x i. unfold Py.str_getitem.
    destruct (Py.norm_index _ _); [|discriminate].
    destruct (String.get _ _); discriminate. }
  assert (G2 : forall (l : list string) i, Py.list_getitem l i <> OutOfFuel).
  { intros l i. unfold Py.list_getitem.
    destruct (Py.norm_index _ _); [|discriminate].
    destruct (nth_error _ _); discriminate. }
  assert (G3 : forall b m, assert b m <> OutOfFuel)
    by (intros [] m; discriminate).
  assert (G4 : forall l i, Py.index_from "X" l i <> OutOfFuel).
  { induction l as [|y l IH]; intros i; simpl; [discriminate|].
    destruct (String.eqb y "X"); [discriminate|apply IH]. }
  unfold __init__, _validate_string.
  repeat (apply bind_total; [auto|intros ?]); try discriminate.
  apply G4.
Qed.

End Validation.

(** ** Every read of a run from a validated input has room to move *)

Section Entered.

Lemma init_delimited s self :
  __init__ s = Ret self -> delimited (parse_string self).
Proof.
  intros Hi. apply init_sound in Hi as (Hv & _ & _).
  pose proof (validate_sound _ _ Hv) as [HT [s' Hs]].
  rewrite HT in Hv. apply validate_iff in Hv
    as (u0 & u1 & rest & _ & _ & _ & _ & _ & Hlast & _).
  rewrite HT. split.
  - rewrite Hs. reflexivity.
  - apply last_cell, Hlast.
Qed.

Lemma entered_room s self c :
  __init__ s = Ret self ->
  entered (set_curr_state self (ObjState L1)) c ->
  cursor_ok c /\ delimited (parse_string c) /\ room c.
Proof.
  intros Hi He. induction He as [|c st fuel w c' He IH Hst Hp Hv].
  - split; [exact (init_cursor_ok _ _ Hi)|].
    split; [exact (init_delimited _ _ Hi)|].
    exists L1. split; [reflexivity|].
    destruct (init_cursor _ _ Hi) as (pre & y & post & _ & _ & Hptr).
    cbn [set_curr_state pointer]. rewrite Hptr. unfold Py.len.
    split; [intros _; lia|discriminate].
  - destruct IH as (Hc & Hd & st0 & Hst0 & Hl & Hr).
    rewrite Hst in Hst0. inversion Hst0; subst st0.
    exact (entry_step st fuel c w c' Hc Hd Hl Hr Hp Hv).
Qed.

End Entered.

(** * The claims *)

(** C1. For every valid input whose characters are Y, a target bit pattern
    [t], X, the same bits [t] and then anything ([rest], which validation
    makes end with Y), Locator(s).start() returns, and its verdict is
    "Copy"; the tape returned has the matched candidate bits marked. *)
Theorem copy_on_matching_first_candidate
    (s : string) (t : list bool) (rest : list string) :
  _validate_string s = Ret ("Y" :: digits t ++ "X" :: digits t ++ rest) ->
  returns (fun fuel => run fuel s)
    (Py.join ("Y" :: digits t ++ "X" :: marks t ++ rest), "Copy").
Proof.
  intros Hv. eapply run_returns; [apply init_on_tape; exact Hv|].
  apply (start_sweep _ t (digits t ++ rest)); [reflexivity|reflexivity|].
  pose proof (candidate_copy t [] [] [] rest (Forall_nil _)) as H.
  unfold comparing in H. cbn [digits marks map app] in H.
  rewrite !app_nil_r in H. exact H.
Qed.

Lemma copy_on_matching_first_candidate_witness :
  _validate_string "Y101X101111Y"
  = Ret ("Y" :: digits [true; false; true] ++ "X"
             :: digits [true; false; true] ++ ["1"; "1"; "1"; "Y"]) /\
  returns (fun fuel => run fuel "Y101X101111Y") ("Y101XBAB111Y", "Copy").
Proof.
  split; [reflexivity|].
  exact (copy_on_matching_first_candidate "Y101X101111Y" [true; false; true]
           ["1"; "1"; "1"; "Y"] eq_refl).
Defined.

(** C2, as stated, fails: "Y11X100X1X10Y" satisfies the input contract
    (in the words of the specification and for the validation of the
    code), no candidate segment equals the target 11 or even begins with
    it, and yet the run returns "Copy": the second block is shorter than
    the target, so the comparison runs on into the third block. *)
Lemma halt_without_match_counterexample :
  contract_spec "Y11X100X1X10Y" = true /\
  _validate_string "Y11X100X1X10Y"
  = Ret (input_tape [true; true] [true; false; false]
           [[true]; [true; false]]) /\
  Forall (fun c' => c' <> [true; true] /\ begins_with [true; true] c' = false)
    [[true; false; false]; [true]; [true; false]] /\
  returns (fun fuel => run fuel "Y11X100X1X10Y") ("Y11XBAAXBXB0Y", "Copy") /\
  ~ (exists out, returns (fun fuel => run fuel "Y11X100X1X10Y") (out, "Halt")).
Proof.
  assert (R : returns (fun fuel => run fuel "Y11X100X1X10Y")
                ("Y11XBAAXBXB0Y", "Copy")).
  { exists 40%nat. intros f' Hle.
    apply (run_mono _ 40%nat); [reflexivity|discriminate|exact Hle]. }
  split; [reflexivity|]. split; [reflexivity|]. split.
  - repeat constructor; discriminate.
  - split; [exact R|]. intros [out H].
    pose proof (returns_unique _ _ _ R H) as E. discriminate.
Qed.

(** C2, amended.  For every valid input made of a target bit pattern [t]
    and candidate blocks [c], [cs] that are bit patterns at least as long
    as the target, none of which begins with the target (none equals the
    target on the target's length), Locator(s).start() returns the
    verdict "Halt"; at that point the cursor is on the last
    cell, the closing Y, and the tape (of the length of the input) is the
    one [located] computes: every block but the last is marked throughout,
    the last one up to its first differing bit. *)
Theorem halt_after_all_candidates
    (s : string) (t c : list bool) (cs : list (list bool)) :
  _validate_string s = Ret (input_tape t c cs) ->
  Forall (fun c' => (List.length t <= List.length c')%nat) (c :: cs) ->
  Forall (fun c' => begins_with t c' = false) (c :: cs) ->
  exists self body,
    __init__ s = Ret self /\
    returns (fun fuel => Locator_start fuel self)
      ((Py.join (body ++ ["Y"]), "Halt"),
       mkLocator (body ++ ["Y"]) (Py.len body) (Some (ObjStr "Halt"))) /\
    returns (fun fuel => run fuel s) (Py.join (body ++ ["Y"]), "Halt") /\
    List.length (body ++ ["Y"]) = List.length (input_tape t c cs) /\
    located t [] c cs = (body ++ ["Y"], Py.len body, "Halt").
Proof.
  intros Hv Hlen Hno.
  destruct (start_located s t c cs Hv Hlen) as (self & Hi & Ht & Hr).
  destruct (located_halt t cs c [] Hno) as [body Hb].
  rewrite Hb in Hr. cbn [outcome_of] in Hr.
  exists self, body. split; [exact Hi|]. split; [exact Hr|].
  split; [exact (run_returns _ _ _ _ Hi Hr)|]. split; [|exact Hb].
  destruct Hr as [f Hf]. specialize (Hf f (Nat.le_refl f)).
  unfold Locator_start, Locator_process in Hf.
  pose proof (init_cursor_ok _ _ Hi) as Hc.
  destruct (process_loop_sound f None (set_curr_state self (ObjState L1)))
    as [_ Hs].
  - exact Hc.
  - intros _. now exists L1.
  - discriminate.
  - destruct (Hs _ _ _ Hf) as (_ & Hl & _). cbn in Hl. rewrite Hl, Ht.
    reflexivity.
Qed.

Lemma halt_after_all_candidates_witness :
  _validate_string "Y11X00Y" = Ret (input_tape [true; true] [false; false] []) /\
  Forall (fun c' => (2 <= List.length c')%nat) [[false; false]] /\
  Forall (fun c' => begins_with [true; true] c' = false) [[false; false]] /\
  exists self body,
    __init__ "Y11X00Y" = Ret self /\
    returns (fun fuel => Locator_start fuel self)
      ((Py.join (body ++ ["Y"]), "Halt"),
       mkLocator (body ++ ["Y"]) (Py.len body) (Some (ObjStr "Halt"))) /\
    returns (fun fuel => run fuel "Y11X00Y") (Py.join (body ++ ["Y"]), "Halt") /\
    List.length (body ++ ["Y"]) = 7%nat /\
    located [true; true] [] [false; false] []
    = (body ++ ["Y"], Py.len body, "Halt").
Proof.
  assert (H1 : Forall (fun c' => (2 <= List.length c')%nat) [[false; false]])
    by (repeat constructor).
  assert (H2 : Forall (fun c' => begins_with [true; true] c' = false)
                 [[false; false]])
    by (repeat constructor).
  split; [reflexivity|]. split; [exact H1|]. split; [exact H2|].
  exact (halt_after_all_candidates "Y11X00Y" [true; true] [false; false] []
           eq_refl H1 H2).
Defined.

(** C3, as stated, fails: "Y11X100X1Y" satisfies the input contract (in
    the words of the specification and for the validation of the code), a
    Locator is constructed for it, and its start() never returns: no loop
    budget is enough. *)
Lemma termination_counterexample :
  contract_spec "Y11X100X1Y" = true /\
  _validate_string "Y11X100X1Y"
  = Ret (input_tape [true; true] [true; false; false] [[true]]) /\
  (exists self, __init__ "Y11X100X1Y" = Ret self) /\
  diverges (fun fuel => run fuel "Y11X100X1Y") /\
  ~ (exists res, returns (fun fuel => run fuel "Y11X100X1Y") res).
Proof.
  split; [reflexivity|]. split; [reflexivity|].
  split; [eexists; reflexivity|].
  split; [exact short_block_diverges|].
  intros [res H]. exact (diverges_not_returns _ res short_block_diverges H).
Qed.

(** C3, amended.  For every valid input made of a target bit pattern and
    candidate blocks that are bit patterns at least as long as the target,
    the run loop terminates: Locator(s).start() returns, with one of the
    two verdicts, and the verdict is "Copy" exactly when some candidate
    block begins with the target. *)
Theorem terminates_on_full_length_candidates
    (s : string) (t c : list bool) (cs : list (list bool)) :
  _validate_string s = Ret (input_tape t c cs) ->
  Forall (fun c' => (List.length t <= List.length c')%nat) (c :: cs) ->
  exists out v,
    returns (fun fuel => run fuel s) (out, v) /\
    (v = "Copy" \/ v = "Halt") /\
    (v = "Copy" <-> Exists (fun c' => begins_with t c' = true) (c :: cs)).
Proof.
  intros Hv Hlen.
  destruct (start_located s t c cs Hv Hlen) as (self & Hi & _ & Hr).
  pose proof (located_verdict t cs c []) as Hver.
  pose proof (located_copy_iff t cs c []) as Hiff.
  destruct (located t [] c cs) as [[T p] v]. cbn [outcome_of snd] in *.
  exists (Py.join T), v. split; [exact (run_returns _ _ _ _ Hi Hr)|].
  split; [exact Hver|exact Hiff].
Qed.

Lemma terminates_on_full_length_candidates_witness :
  _validate_string "Y11X100X11Y"
  = Ret (input_tape [true; true] [true; false; false] [[true; true]]) /\
  Forall (fun c' => (2 <= List.length c')%nat)
    [[true; false; false]; [true; true]] /\
  exists out v,
    returns (fun fuel => run fuel "Y11X100X11Y") (out, v) /\
    (v = "Copy" \/ v = "Halt") /\
    (v = "Copy" <-> Exists (fun c' => begins_with [true; true] c' = true)
                      [[true; false; false]; [true; true]]).
Proof.
  assert (H1 : Forall (fun c' => (2 <= List.length c')%nat)
                 [[true; false; false]; [true; true]])
    by (repeat constructor).
  split; [reflexivity|]. split; [exact H1|].
  exact (terminates_on_full_length_candidates "Y11X100X11Y" [true; true]
           [true; false; false] [[true; true]] eq_refl H1).
Defined.

(** C4.  The input "Y101X101111" of the class docstring is not accepted:
    the constructor raises AssertionError("Improper delimiters"), because
    the string does not end with Y, so Locator("Y101X101111").start() never
    yields a pair.  The machine itself, started on that tape with the
    cursor on the X, does produce the documented pair. *)
Theorem docstring_example_is_rejected :
  __init__ "Y101X101111" = Raise (AssertionError "Improper delimiters") /\
  (forall fuel, run fuel "Y101X101111"
                = Raise (AssertionError "Improper delimiters")) /\
  returns (fun fuel =>
             Locator_start fuel
               (mkLocator (Py.list_of_str "Y101X101111") 4 None))
    (("Y101XBAB111", "Copy"),
     mkLocator (Py.list_of_str "Y101XBAB111") 4 (Some (ObjStr "Copy"))) /\
  returns (fun fuel => run fuel "Y101X101111Y") ("Y101XBAB111Y", "Copy").
Proof.
  split; [reflexivity|]. split; [intros fuel; reflexivity|]. split.
  - exists 20%nat. intros f' Hle. unfold Locator_start, Locator_process.
    apply (process_loop_mono 20%nat); [reflexivity|discriminate|exact Hle].
  - exists 20%nat. intros f' Hle.
    apply (run_mono _ 20%nat); [reflexivity|discriminate|exact Hle].
Qed.

(** C5.  The six strings of the docstring ("Y", "YY", "Y11X1", "Y11X11",
    "YX11", "YX11Y") are rejected by the constructor, before any state
    processing runs, as the claim says.  But the code breaks the claim on
    "Y11X11Y": its target 11 is not strictly shorter than its only
    candidate segment 11 (the text between the last X and the closing Y),
    so the input contract is violated, and yet the constructor accepts the
    string.  The length check compares the target, stripped of Y, with
    units[1], which keeps the closing Y when there is a single X; the same
    first block is rejected when another X follows, as in "Y11X11X1Y". *)
Theorem single_block_length_check_counts_the_closing_Y :
  contract_spec "Y11X11Y" = false /\
  __init__ "Y11X11Y"
  = Ret (mkLocator ["Y"; "1"; "1"; "X"; "1"; "1"; "Y"] 3 None) /\
  ~ (exists e, __init__ "Y11X11Y" = Raise e) /\
  contract_spec "Y11X11X1Y" = false /\
  __init__ "Y11X11X1Y"
  = Raise (AssertionError "Target--location lengths don't match.") /\
  Forall (fun x => exists msg,
            __init__ x = Raise (AssertionError msg) /\
            forall fuel, run fuel x = Raise (AssertionError msg))
    ["Y"; "YY"; "Y11X1"; "Y11X11"; "YX11"; "YX11Y"].
Proof.
  split; [reflexivity|]. split; [reflexivity|]. split.
  { intros [e H]. discriminate H. }
  split; [reflexivity|]. split; [reflexivity|].
  repeat constructor; eexists; (split; [reflexivity|intros fuel; reflexivity]).
Qed.

(** C6.  From a validated input the cursor invariant
    0 <= pointer < len(parse_string) holds after construction; every
    shift, every read and every State.process call (the write step)
    preserves it; so it holds in every context the run passes through,
    where the cell under the cursor exists and the tape has the length of
    the input; the run never raises, and the invariant holds when it
    returns. *)
Theorem cursor_stays_on_tape (s : string) (self : Locator) :
  __init__ s = Ret self ->
  cursor_ok self /\
  (forall st c, cursor_ok c -> cursor_ok (State_shift st c)) /\
  (forall fuel st c r c',
     cursor_ok c -> State_read fuel st c = Ret (r, c') -> cursor_ok c') /\
  (forall fuel st c w c',
     cursor_ok c -> State_process fuel st c = Ret (w, c') -> cursor_ok c') /\
  (forall c, visited (set_curr_state self (ObjState L1)) c ->
     cursor_ok c /\
     List.length (parse_string c) = String.length s /\
     exists x, under_cursor c = Ret x) /\
  (forall fuel e, Locator_start fuel self <> Raise e) /\
  (forall fuel res self',
     Locator_start fuel self = Ret (res, self') -> cursor_ok self').
Proof.
  intros Hi. pose proof (init_cursor_ok _ _ Hi) as Hc.
  assert (Hlen : List.length (parse_string self) = String.length s).
  { apply init_sound in Hi as (Hv & _). apply validate_sound in Hv as [-> _].
    apply list_of_str_length. }
  assert (Hstart : forall fuel,
    (forall e, Locator_start fuel self <> Raise e) /\
    (forall out v c', Locator_start fuel self = Ret ((out, v), c') ->
       cursor_ok c')).
  { intros fuel. unfold Locator_start, Locator_process.
    destruct (process_loop_sound fuel None (set_curr_state self (ObjState L1)))
      as [Hnr Hret].
    - exact Hc.
    - intros _. now exists L1.
    - discriminate.
    - split; [exact Hnr|]. intros out v c' H. apply (Hret out v c' H). }
  split; [exact Hc|]. split; [exact cursor_ok_shift|]. split.
  { intros fuel st c r c' Hcc H.
    apply (read_loop_sound _ _ _ _ _ _ _ Hcc H). }
  split.
  { intros fuel st c w c' Hcc H.
    destruct (State_process_sound st fuel c Hcc) as [_ Hs].
    apply (Hs w c' H). }
  split.
  { intros c Hvis.
    assert (G : cursor_ok c /\ List.length (parse_string c) = String.length s).
    { induction Hvis as [|c st Hvis [IH1 IH2] Hst
                          |c st fuel w c' Hvis [IH1 IH2] Hst Hp].
      - split; [exact Hc|exact Hlen].
      - split; [apply cursor_ok_shift; exact IH1|].
        destruct (shift_keeps_tape st c) as [-> _]. exact IH2.
      - destruct (State_process_sound st fuel c IH1) as [_ Hs].
        destruct (Hs w c' Hp) as (H1 & H2 & _). split; [exact H1|].
        rewrite H2. exact IH2. }
    destruct G as [G1 G2]. split; [exact G1|]. split; [exact G2|].
    destruct (under_cursor_ok c G1) as (x & Hx & _). now exists x. }
  split.
  - intros fuel e. apply (Hstart fuel).
  - intros fuel [out v] self' H. apply (proj2 (Hstart fuel) out v self' H).
Qed.

Lemma cursor_stays_on_tape_witness :
  __init__ "Y11X00Y"
  = Ret (mkLocator ["Y"; "1"; "1"; "X"; "0"; "0"; "Y"] 3 None) /\
  cursor_ok (mkLocator ["Y"; "1"; "1"; "X"; "0"; "0"; "Y"] 3 None).
Proof.
  split; [reflexivity|].
  exact (proj1 (cursor_stays_on_tape "Y11X00Y"
                  (mkLocator ["Y"; "1"; "1"; "X"; "0"; "0"; "Y"] 3 None)
                  eq_refl)).
Defined.

(** C7.  State.read, from a context with the cursor on the tape, returns
    exactly when some number k >= 1 of shifts in the direction of the state
    lands on a symbol of the state's table while no smaller number j >= 1
    does: every inspection comes after a move, the value returned is the
    first accepted symbol met, and the cursor is left on it.  When the
    cursor has room to move in that direction, none of the inspected
    positions is the position on entry; and in a run from a validated
    input every call of State.read is made with such room, so there the
    cell under the cursor on entry is never inspected.  (With the cursor
    already clamped at the tape end the first shift does not move it.) *)
Theorem read_moves_before_it_inspects
    (self : State) (fuel : nat) (c : Locator) (r : option string)
    (c' : Locator) :
  cursor_ok c ->
  (State_read fuel self c = Ret (r, c') <->
   exists k sym,
     (1 <= k <= fuel)%nat /\ c' = iter_shift k self c /\ r = Some sym /\
     under_cursor c' = Ret sym /\ accepts self sym = true /\
     forall j, (1 <= j < k)%nat ->
       exists x, under_cursor (iter_shift j self c) = Ret x /\
                 accepts self x = false) /\
  ((is_left self = true -> 0 < pointer c) ->
   (is_left self = false -> pointer c < Py.len (parse_string c) - 1) ->
   forall j, (1 <= j)%nat -> pointer (iter_shift j self c) <> pointer c) /\
  (forall s self0,
     __init__ s = Ret self0 ->
     entered (set_curr_state self0 (ObjState L1)) c ->
     curr_state c = Some (ObjState self) ->
     forall j, (1 <= j)%nat -> pointer (iter_shift j self c) <> pointer c).
Proof.
  intros Hc. split; [|split].
  - apply State_read_spec. exact Hc.
  - apply iter_shift_leaves. exact Hc.
  - intros s self0 Hi He Hst.
    destruct (entered_room s self0 c Hi He) as (_ & _ & st & Hst' & Hl & Hr).
    rewrite Hst in Hst'. inversion Hst'; subst st.
    apply iter_shift_leaves; assumption.
Qed.

Lemma read_moves_before_it_inspects_witness :
  cursor_ok (mkLocator ["Y"; "1"; "0"; "X"; "1"; "0"; "1"; "Y"] 3 None) /\
  exists k sym,
    (1 <= k <= 5)%nat /\
    mkLocator ["Y"; "1"; "0"; "X"; "1"; "0"; "1"; "Y"] 0 None
    = iter_shift k L2
        (mkLocator ["Y"; "1"; "0"; "X"; "1"; "0"; "1"; "Y"] 3 None) /\
    Some "Y" = Some sym /\
    under_cursor (mkLocator ["Y"; "1"; "0"; "X"; "1"; "0"; "1"; "Y"] 0 None)
    = Ret sym /\
    accepts L2 sym = true /\
    forall j, (1 <= j < k)%nat ->
      exists x,
        under_cursor
          (iter_shift j L2
             (mkLocator ["Y"; "1"; "0"; "X"; "1"; "0"; "1"; "Y"] 3 None))
        = Ret x /\
        accepts L2 x = false.
Proof.
  assert (H : cursor_ok
                (mkLocator ["Y"; "1"; "0"; "X"; "1"; "0"; "1"; "Y"] 3 None))
    by (unfold cursor_ok, Py.len; simpl; lia).
  split; [exact H|].
  exact (proj1 (proj1 (read_moves_before_it_inspects L2 5
                         (mkLocator ["Y"; "1"; "0"; "X"; "1"; "0"; "1"; "Y"]
                            3 None)
                         (Some "Y")
                         (mkLocator ["Y"; "1"; "0"; "X"; "1"; "0"; "1"; "Y"]
                            0 None) H))
           eq_refl).
Defined.

(** C8.  One shift leaves the tape and the state alone and sets the
    cursor to p-1 for the Left states (L1, L2) and to p+1 for the Right
    states, clamped into [0, len-1]: a Left shift at 0 and a Right shift at
    the last index leave the cursor where it is, however often they are
    repeated.  The shift is a total function: nothing is raised. *)
Theorem shift_clamps_at_the_ends (self : State) (c : Locator) :
  cursor_ok c ->
  let p := pointer c in
  let n := Py.len (parse_string c) in
  parse_string (State_shift self c) = parse_string c /\
  curr_state (State_shift self c) = curr_state c /\
  (is_left self = true <-> self = L1 \/ self = L2) /\
  (is_left self = true -> pointer (State_shift self c) = Z.max (p - 1) 0) /\
  (is_left self = false ->
     pointer (State_shift self c) = Z.min (p + 1) (n - 1)) /\
  (is_left self = true -> p = 0 -> forall k, iter_shift k self c = c) /\
  (is_left self = false -> p = n - 1 -> forall k, iter_shift k self c = c).
Proof.
  intros Hc p n.
  destruct (shift_keeps_tape self c) as [Ht Hs].
  split; [exact Ht|]. split; [exact Hs|]. split.
  { destruct self; cbv; split; intros H; try discriminate; auto;
      destruct H as [H|H]; discriminate. }
  split.
  { intros Hl. rewrite shift_left_pointer by exact Hl. reflexivity. }
  split.
  { intros Hr. rewrite shift_right_pointer by (exact Hr || apply Hc).
    reflexivity. }
  split.
  - intros Hl Hp. induction k as [|k IH]; simpl; [reflexivity|].
    rewrite IH, shift_left_pointer by exact Hl. fold p. rewrite Hp.
    destruct c as [T q cs]. simpl in p, Hp. subst p q. reflexivity.
  - intros Hr Hp. induction k as [|k IH]; simpl; [reflexivity|].
    rewrite IH, shift_right_pointer by (exact Hr || apply Hc).
    fold p n. rewrite Hp.
    replace (Z.min (n - 1 + 1) (n - 1)) with (n - 1) by lia.
    destruct c as [T q cs]. simpl in p, n, Hp. subst p n.
    unfold set_pointer. simpl. now rewrite Hp.
Qed.

Lemma shift_clamps_at_the_ends_witness :
  cursor_ok (mkLocator ["Y"; "1"; "X"; "1"; "1"; "Y"] 5 None) /\
  pointer (State_shift R4 (mkLocator ["Y"; "1"; "X"; "1"; "1"; "Y"] 5 None))
  = Z.min (5 + 1) (6 - 1).
Proof.
  assert (H : cursor_ok (mkLocator ["Y"; "1"; "X"; "1"; "1"; "Y"] 5 None))
    by (unfold cursor_ok, Py.len; simpl; lia).
  split; [exact H|].
  exact (proj1 (proj2 (proj2 (proj2 (proj2
           (shift_clamps_at_the_ends R4
              (mkLocator ["Y"; "1"; "X"; "1"; "1"; "Y"] 5 None) H)))))
           eq_refl).
Defined.

(** C9.  Whenever Locator(s).start() returns, the string it returns has
    exactly the length of the input string. *)
Theorem output_keeps_length (s : string) (fuel : nat) (out v : string) :
  run fuel s = Ret (out, v) -> String.length out = String.length s.
Proof.
  unfold run. intros H.
  apply bind_ret in H as (self & Hi & H1).
  apply bind_ret in H1 as ([res self'] & Hr & H2).
  inversion H2; subst res. clear H2.
  pose proof (init_cursor_ok _ _ Hi) as Hc.
  apply init_sound in Hi as (Hv & _). apply validate_sound in Hv as [HT _].
  unfold Locator_start, Locator_process in Hr.
  destruct (process_loop_sound fuel None (set_curr_state self (ObjState L1)))
    as [_ Hs].
  - exact Hc.
  - intros _. now exists L1.
  - discriminate.
  - destruct (Hs _ _ _ Hr) as (_ & Hl & Hcells & -> & _).
    cbn [set_curr_state parse_string] in Hl, Hcells.
    rewrite join_length, Hl, HT by (apply Hcells; rewrite HT;
                                    apply list_of_str_cells).
    apply list_of_str_length.
Qed.

Lemma output_keeps_length_witness :
  run 20 "Y11X00Y" = Ret ("Y1BXA0Y", "Halt") /\
  String.length "Y1BXA0Y" = String.length "Y11X00Y".
Proof.
  split; [reflexivity|].
  exact (output_keeps_length "Y11X00Y" 20 "Y1BXA0Y" "Halt" eq_refl).
Defined.



(** * Further properties of the code *)

(** ** State.shift: how shifts compose *)

Section Shifts.

Lemma iter_left_pointer st c k :
  is_left st = true -> 0 <= pointer c ->
  pointer (iter_shift k st c) = Z.max (pointer c - Z.of_nat k) 0.
Proof.
  intros E Hp. induction k as [|k IH].
  - simpl. lia.
  - cbn [iter_shift]. rewrite shift_left_pointer by exact E.
    cbn [set_pointer pointer]. rewrite IH. lia.
Qed.

Lemma iter_right_pointer st c k :
  is_left st = false -> cursor_ok c ->
  pointer (iter_shift k st c)
  = Z.min (pointer c + Z.of_nat k) (Py.len (parse_string c) - 1).
Proof.
  intros E Hc. induction k as [|k IH].
  - simpl. destruct Hc. lia.
  - cbn [iter_shift].
    pose proof (cursor_ok_iter k st c Hc) as Hk.
    rewrite shift_right_pointer by (exact E || apply Hk).
    cbn [set_pointer pointer].
    destruct (iter_keeps_tape k st c) as [-> _]. rewrite IH. lia.
Qed.

Lemma Locator_ext (a b : Locator) :
  parse_string a = parse_string b -> pointer a = pointer b ->
  curr_state a = curr_state b -> a = b.
Proof. destruct a, b; simpl; intros -> -> ->; reflexivity. Qed.

(** X1.  From a cursor in range, k shifts of a Left state put the cursor
    at max(p - k, 0) and k shifts of a Right state at min(p + k, len - 1),
    and leave the tape and the current state untouched.  As long as the
    tape end is not reached the two directions undo each other: k Left
    shifts followed by k Right shifts give back the context they started
    from when k <= p, and k Right shifts followed by k Left shifts when
    p + k <= len - 1; in particular one shift undoes one shift away from
    the ends. *)
Theorem shifts_compose (l r : State) (c : Locator) (k : nat) :
  cursor_ok c -> is_left l = true -> is_left r = false ->
  pointer (iter_shift k l c) = Z.max (pointer c - Z.of_nat k) 0 /\
  pointer (iter_shift k r c)
  = Z.min (pointer c + Z.of_nat k) (Py.len (parse_string c) - 1) /\
  parse_string (iter_shift k l c) = parse_string c /\
  parse_string (iter_shift k r c) = parse_string c /\
  (0 < pointer c -> State_shift r (State_shift l c) = c) /\
  (pointer c < Py.len (parse_string c) - 1 ->
   State_shift l (State_shift r c) = c) /\
  curr_state (iter_shift k l c) = curr_state c /\
  curr_state (iter_shift k r c) = curr_state c /\
  (Z.of_nat k <= pointer c -> iter_shift k r (iter_shift k l c) = c) /\
  (pointer c + Z.of_nat k <= Py.len (parse_string c) - 1 ->
   iter_shift k l (iter_shift k r c) = c).
Proof.
  intros Hc Hl Hr.
  assert (Hpl := iter_left_pointer l c k Hl (proj1 Hc)).
  assert (Hpr := iter_right_pointer r c k Hr Hc).
  destruct (iter_keeps_tape k l c) as [Htl Hsl].
  destruct (iter_keeps_tape k r c) as [Htr Hsr].
  split; [exact Hpl|]. split; [exact Hpr|].
  split; [exact Htl|]. split; [exact Htr|].
  assert (Hone : (0 < pointer c -> State_shift r (State_shift l c) = c) /\
                 (pointer c < Py.len (parse_string c) - 1 ->
                  State_shift l (State_shift r c) = c)).
  { destruct c as [T p cs]. unfold cursor_ok in Hc.
    cbn [pointer parse_string] in *. split.
    - intros Hp. rewrite (shift_left_pointer l) by exact Hl.
      rewrite shift_right_pointer by (exact Hr || (cbn; lia)).
      unfold set_pointer. cbn. f_equal. lia.
    - intros Hp. rewrite (shift_right_pointer r) by (exact Hr || (cbn; lia)).
      rewrite shift_left_pointer by exact Hl.
      unfold set_pointer. cbn. f_equal. lia. }
  split; [apply Hone|]. split; [apply Hone|].
  split; [exact Hsl|]. split; [exact Hsr|].
  split.
  - intros Hk.
    pose proof (cursor_ok_iter k l c Hc) as Hcl.
    destruct (iter_keeps_tape k r (iter_shift k l c)) as [Ht Hs].
    apply Locator_ext.
    + now rewrite Ht.
    + rewrite (iter_right_pointer r _ k Hr Hcl), Hpl, Htl.
      destruct Hc. lia.
    + now rewrite Hs.
  - intros Hk.
    pose proof (cursor_ok_iter k r c Hc) as Hcr.
    destruct (iter_keeps_tape k l (iter_shift k r c)) as [Ht Hs].
    apply Locator_ext.
    + now rewrite Ht.
    + rewrite (iter_left_pointer l _ k Hl (proj1 Hcr)), Hpr.
      destruct Hc. lia.
    + now rewrite Hs.
Qed.

Lemma shifts_compose_witness :
  cursor_ok (mkLocator ["Y"; "1"; "X"; "1"; "1"; "Y"] 2 None) /\
  pointer (iter_shift 5 L1 (mkLocator ["Y"; "1"; "X"; "1"; "1"; "Y"] 2 None))
  = Z.max (2 - 5) 0.
Proof.
  assert (H : cursor_ok (mkLocator ["Y"; "1"; "X"; "1"; "1"; "Y"] 2 None))
    by (unfold cursor_ok, Py.len; simpl; lia).
  split; [exact H|].
  exact (proj1 (shifts_compose L1 R1
                  (mkLocator ["Y"; "1"; "X"; "1"; "1"; "Y"] 2 None) 5
                  H eq_refl eq_refl)).
Defined.

End Shifts.

(** ** State.read: when the search hangs and when it cannot *)

Section Hanging.

Lemma read_out_of_fuel_iff st :
  forall fuel c,
    cursor_ok c ->
    (State_read fuel st c = OutOfFuel <->
     forall k, (1 <= k <= fuel)%nat ->
       exists x, under_cursor (iter_shift k st c) = Ret x /\
                 accepts st x = false).
Proof.
  induction fuel as [|f IH]; intros c Hc.
  - split; [intros _ k Hk; lia|reflexivity].
  - destruct (State_read_unfold st f c Hc) as (x & Hx & ->).
    destruct (accepts st x) eqn:A.
    + split; [discriminate|]. intros H.
      destruct (H 1%nat ltac:(lia)) as (x' & Hx' & Ha').
      simpl in Hx'. congruence.
    + rewrite (IH _ (cursor_ok_shift st c Hc)). split.
      * intros H [|[|k]] Hk; [lia| |].
        -- exists x. now split.
        -- rewrite <- iter_shift_first. apply H. lia.
      * intros H k Hk. rewrite iter_shift_first. apply H. lia.
Qed.

Lemma State_read_never_raises st fuel c e :
  cursor_ok c -> State_read fuel st c <> Raise e.
Proof. intros Hc. apply read_loop_never_raises, Hc. Qed.

(** A key of the table somewhere along the shifts makes the search
    return. *)
Lemma read_finds st c k x :
  cursor_ok c -> (1 <= k)%nat ->
  under_cursor (iter_shift k st c) = Ret x -> accepts st x = true ->
  exists sym c',
    forall fuel, (k <= fuel)%nat -> State_read fuel st c = Ret (Some sym, c').
Proof.
  intros Hc Hk Hx Ha.
  destruct (State_read k st c) as [[r c']| |] eqn:E.
  - pose proof (proj1 (State_read_spec st k c r c' Hc) E)
      as (k' & sym & _ & _ & -> & _).
    exists sym, c'. intros fuel Hle. unfold State_read in *.
    apply (read_loop_mono _ _ k fuel); [exact E|discriminate|exact Hle].
  - exfalso. exact (State_read_never_raises st k c e Hc E).
  - exfalso. pose proof (proj1 (read_out_of_fuel_iff st k c Hc) E) as E'.
    destruct (E' k ltac:(lia)) as (x' & Hx' & Ha'). congruence.
Qed.

(** X2.  From a cursor in range, State.read never returns exactly when no
    number k >= 1 of shifts lands on a symbol of the state's table; it
    raises nothing either way. *)
Theorem read_hangs_iff (self : State) (c : Locator) :
  cursor_ok c ->
  (diverges (fun fuel => State_read fuel self c) <->
   forall k, (1 <= k)%nat ->
     exists x, under_cursor (iter_shift k self c) = Ret x /\
               accepts self x = false) /\
  (forall fuel e, State_read fuel self c <> Raise e).
Proof.
  intros Hc. split; [|intros fuel e; apply State_read_never_raises, Hc].
  unfold diverges. split.
  - intros H k Hk.
    apply (proj1 (read_out_of_fuel_iff self k c Hc) (H k)). lia.
  - intros H fuel. apply (read_out_of_fuel_iff self fuel c Hc).
    intros k Hk. apply H. lia.
Qed.

Lemma read_hangs_iff_witness :
  cursor_ok (mkLocator ["Y"; "1"; "X"; "A"; "Y"] 2 None) /\
  (diverges (fun fuel =>
               State_read fuel R3 (mkLocator ["Y"; "1"; "X"; "A"; "Y"] 2 None))
   <->
   forall k, (1 <= k)%nat ->
     exists x,
       under_cursor
         (iter_shift k R3 (mkLocator ["Y"; "1"; "X"; "A"; "Y"] 2 None))
       = Ret x /\
       accepts R3 x = false).
Proof.
  assert (H : cursor_ok (mkLocator ["Y"; "1"; "X"; "A"; "Y"] 2 None))
    by (unfold cursor_ok, Py.len; simpl; lia).
  split; [exact H|].
  exact (proj1 (read_hangs_iff R3
                  (mkLocator ["Y"; "1"; "X"; "A"; "Y"] 2 None) H)).
Defined.

(** X3.  On a tape that begins and ends with Y, with the cursor in range,
    the read of a Left state (L1, L2) and the read of R4 always return:
    L1 and L2 accept the opening Y and R4 the closing one, so the search
    can only hang in R1, R2 or R3.  The budget needed is at most the
    distance to that end of the tape (and at least one iteration). *)
Theorem end_seeking_reads_return (self : State) (c : Locator) :
  cursor_ok c -> delimited (parse_string c) ->
  is_left self = true \/ self = R4 ->
  exists sym c',
    returns (fun fuel => State_read fuel self c) (Some sym, c') /\
    forall fuel,
      (Z.to_nat (Py.len (parse_string c)) <= fuel)%nat ->
      State_read fuel self c = Ret (Some sym, c').
Proof.
  intros Hc [H0 Hlast] Hst.
  assert (Hlen : 0 < Py.len (parse_string c)) by (destruct Hc; lia).
  assert (Hfind : exists k x,
            (1 <= k <= Z.to_nat (Py.len (parse_string c)))%nat /\
            under_cursor (iter_shift k self c) = Ret x /\
            accepts self x = true).
  { destruct Hst as [El| ->].
    - exists (Nat.max 1 (Z.to_nat (pointer c))), "Y".
      split; [destruct Hc; lia|].
      pose proof (cursor_ok_iter (Nat.max 1 (Z.to_nat (pointer c))) self c Hc)
        as Hk.
      destruct (under_cursor_ok _ Hk) as (x & Hx & _).
      pose proof (under_cursor_nth _ _ Hk Hx) as Hn.
      destruct (iter_keeps_tape (Nat.max 1 (Z.to_nat (pointer c))) self c)
        as [Ht _].
      rewrite Ht, iter_left_pointer in Hn by (exact El || apply Hc).
      replace (Z.to_nat (Z.max (pointer c
                 - Z.of_nat (Nat.max 1 (Z.to_nat (pointer c)))) 0))
        with 0%nat in Hn by (destruct Hc; lia).
      assert (x = "Y") by congruence. subst x.
      split; [exact Hx|]. destruct self; try discriminate El; reflexivity.
    - exists (Nat.max 1 (Z.to_nat (Py.len (parse_string c) - 1 - pointer c))),
        "Y".
      split; [destruct Hc; lia|].
      set (k := Nat.max 1 (Z.to_nat (Py.len (parse_string c) - 1 - pointer c))).
      pose proof (cursor_ok_iter k R4 c Hc) as Hk.
      destruct (under_cursor_ok _ Hk) as (x & Hx & _).
      pose proof (under_cursor_nth _ _ Hk Hx) as Hn.
      destruct (iter_keeps_tape k R4 c) as [Ht _].
      rewrite Ht, iter_right_pointer in Hn by (reflexivity || exact Hc).
      replace (Z.to_nat (Z.min (pointer c + Z.of_nat k)
                           (Py.len (parse_string c) - 1)))
        with (List.length (parse_string c) - 1)%nat in Hn
        by (subst k; unfold Py.len in *; destruct Hc; lia).
      assert (x = "Y") by congruence. subst x.
      split; [exact Hx|reflexivity]. }
  destruct Hfind as (k & x & Hk & Hx & Ha).
  destruct (read_finds self c k x Hc ltac:(lia) Hx Ha) as (sym & c' & Hr).
  exists sym, c'. split.
  - exists k. exact Hr.
  - intros fuel Hle. apply Hr. lia.
Qed.

Lemma end_seeking_reads_return_witness :
  cursor_ok (mkLocator ["Y"; "1"; "X"; "A"; "Y"] 2 None) /\
  delimited ["Y"; "1"; "X"; "A"; "Y"] /\
  exists sym c',
    returns (fun fuel =>
               State_read fuel R4 (mkLocator ["Y"; "1"; "X"; "A"; "Y"] 2 None))
      (Some sym, c') /\
    forall fuel,
      (5 <= fuel)%nat ->
      State_read fuel R4 (mkLocator ["Y"; "1"; "X"; "A"; "Y"] 2 None)
      = Ret (Some sym, c').
Proof.
  assert (H : cursor_ok (mkLocator ["Y"; "1"; "X"; "A"; "Y"] 2 None))
    by (unfold cursor_ok, Py.len; simpl; lia).
  assert (D : delimited ["Y"; "1"; "X"; "A"; "Y"]) by (split; reflexivity).
  split; [exact H|]. split; [exact D|].
  exact (end_seeking_reads_return R4
           (mkLocator ["Y"; "1"; "X"; "A"; "Y"] 2 None) H D
           (or_intror eq_refl)).
Defined.

End Hanging.

(** ** State.process and Locator.process: what a run does to the tape *)

Section Effects.

(** One State.process call: the entry of the symbol found decides the
    written cell, which is the one under the returned cursor. *)
Lemma State_process_effect st fuel c w c' :
  cursor_ok c ->
  State_process fuel st c = Ret (w, c') ->
  exists sym n,
    config_get (read_write_next st) sym = Some (w, n) /\
    nth_error (parse_string c) (Z.to_nat (pointer c')) = Some sym /\
    curr_state c' = Some (next_of st n) /\
    cursor_ok c' /\
    parse_string c'
    = match w with
      | Some x => if Py.in_set x verdicts then parse_string c
                  else Py.update (parse_string c) (Z.to_nat (pointer c')) x
      | None => parse_string c
      end.
Proof.
  intros Hc H.
  destruct (State_process_sound st fuel c Hc) as [_ Hs].
  destruct (Hs w c' H) as (Hc' & _).
  unfold State_process in H.
  destruct (State_read fuel st c) as [[r c1]| |] eqn:E; try discriminate.
  apply (State_read_spec st fuel c r c1 Hc) in E
    as (k & sym & Hk & -> & -> & Hu & Ha & _).
  cbn [bind] in H. unfold accepts in Ha. cbn [config_mem] in Ha.
  destruct (config_get (read_write_next st) sym) as [[w0 n]|] eqn:G;
    [|discriminate].
  exists sym, n.
  destruct (iter_keeps_tape k st c) as [Ht _].
  pose proof (cursor_ok_iter k st c Hc) as Hck.
  pose proof (under_cursor_nth _ _ Hck Hu) as Hn. rewrite Ht in Hn.
  assert (Hnext : forall c2, match n with
                   | Some n0 => set_curr_state c2 n0
                   | None => set_curr_state c2 (ObjState st)
                   end = set_curr_state c2 (next_of st n))
    by (intros; destruct n; reflexivity).
  assert (Hfin : forall P Q : Prop, P -> Q -> P /\ Q) by (intros; now split).
  destruct w0 as [x|].
  - destruct (Py.in_set x verdicts) eqn:V; cbn [negb] in H.
    + cbn [bind] in H. rewrite Hnext in H. inversion H; subst.
      cbn [parse_string pointer curr_state set_curr_state set_parse_string].
      rewrite V.
      repeat (apply Hfin; [first [exact G|exact Hn|reflexivity|exact Hc']|]).
      exact Ht.
    + unfold Py.list_setitem in H.
      rewrite norm_index_in in H by exact Hck. cbn [bind] in H.
      rewrite Hnext in H. inversion H; subst.
      cbn [parse_string pointer curr_state set_curr_state set_parse_string].
      rewrite V.
      repeat (apply Hfin; [first [exact G|exact Hn|reflexivity|exact Hc']|]).
      now rewrite Ht.
  - cbn [bind] in H. rewrite Hnext in H. inversion H; subst.
    cbn [parse_string pointer curr_state set_curr_state set_parse_string].
    repeat (apply Hfin; [first [exact G|exact Hn|reflexivity|exact Hc']|]).
    exact Ht.
Qed.

(** Every write of the tables replaces a digit by its marker or a marker
    by its digit. *)
Lemma table_unmark st sym x n :
  config_get (read_write_next st) sym = Some (Some x, n) ->
  Py.in_set x verdicts = false ->
  unmark x = unmark sym.
Proof.
  intros H Hv. destruct st; cbn [read_write_next config_get] in H;
    repeat match type of H with
      | (if String.eqb ?a ?b then _ else _) = _ =>
          destruct (String.eqb_spec a b); [subst|]
      end;
    try discriminate; inversion H; subst; clear H;
    first [reflexivity | discriminate Hv].
Qed.

(** The two terminal entries: R1 on X and R4 on Y. *)
Lemma table_verdict st sym w n v :
  config_get (read_write_next st) sym = Some (w, n) ->
  is_verdict w = Some v ->
  ((v = "Copy" /\ st = R1 /\ sym = "X") \/
   (v = "Halt" /\ st = R4 /\ sym = "Y")) /\
  n = Some (ObjStr v) /\ w = Some v /\ Py.in_set v verdicts = true.
Proof.
  intros H Hv. destruct st; cbn [read_write_next config_get] in H;
    repeat match type of H with
      | (if String.eqb ?a ?b then _ else _) = _ =>
          destruct (String.eqb_spec a b); [subst|]
      end;
    try discriminate; inversion H; subst; clear H;
    cbv in Hv; try discriminate Hv; inversion Hv; subst;
    (split; [first [left; repeat split; reflexivity
                   |right; repeat split; reflexivity]
            |repeat split; reflexivity]).
Qed.

Lemma update_same_image {A B : Type} (f : A -> B) (T : list A) j a x :
  nth_error T j = Some a -> f x = f a ->
  map f (Py.update T j x) = map f T.
Proof.
  revert j. induction T as [|h T IH]; intros [|j] Hn Hf; simpl in *;
    try discriminate.
  - inversion Hn; subst. now rewrite Hf.
  - now rewrite (IH j Hn Hf).
Qed.

Lemma State_process_unmark st fuel c w c' :
  cursor_ok c ->
  State_process fuel st c = Ret (w, c') ->
  map unmark (parse_string c') = map unmark (parse_string c).
Proof.
  intros Hc H.
  destruct (State_process_effect st fuel c w c' Hc H)
    as (sym & n & Hg & Hn & _ & _ & ->).
  destruct w as [x|]; [|reflexivity].
  destruct (Py.in_set x verdicts) eqn:V; [reflexivity|].
  apply (update_same_image unmark _ _ sym); [exact Hn|].
  apply (table_unmark st sym x n Hg V).
Qed.

(** Where a State.process call that writes a verdict leaves the locator. *)
Lemma State_process_verdict st fuel c w c' v :
  cursor_ok c ->
  State_process fuel st c = Ret (w, c') ->
  is_verdict w = Some v ->
  ((v = "Copy" /\ under_cursor c' = Ret "X") \/
   (v = "Halt" /\ under_cursor c' = Ret "Y")) /\
  curr_state c' = Some (ObjStr v).
Proof.
  intros Hc H Hv.
  destruct (State_process_effect st fuel c w c' Hc H)
    as (sym & n & Hg & Hn & Hst & Hc' & Ht).
  destruct (table_verdict st sym w n v Hg Hv) as (Hcase & -> & -> & V).
  rewrite V in Ht.
  assert (Hu : under_cursor c' = Ret sym).
  { unfold under_cursor, Py.list_getitem.
    rewrite norm_index_in by exact Hc'. rewrite Ht, Hn. reflexivity. }
  split; [|exact Hst].
  destruct Hcase as [(-> & _ & ->)|(-> & _ & ->)]; [left|right]; now split.
Qed.

(** Locator.process from a context with the cursor in range and a state
    in [curr_state]: the tape it leaves differs from the one it found only
    by markers standing for digits or digits for markers, and it stops
    on the cell that produced the verdict, with the verdict string in
    [curr_state]. *)
Lemma process_loop_effect :
  forall f w c out v c',
    cursor_ok c -> is_verdict w = None ->
    process_loop f w c = Ret ((out, v), c') ->
    map unmark (parse_string c') = map unmark (parse_string c) /\
    ((v = "Copy" /\ under_cursor c' = Ret "X") \/
     (v = "Halt" /\ under_cursor c' = Ret "Y")) /\
    curr_state c' = Some (ObjStr v).
Proof.
  induction f as [|f IH]; intros w c out v c' Hc Hw H; simpl in H;
    rewrite Hw in H; [discriminate|].
  destruct (curr_state c) as [[st|]|]; try discriminate.
  destruct (State_process f st c) as [[w1 c1]| |] eqn:E; try discriminate.
  cbn [bind] in H.
  pose proof (State_process_unmark st f c w1 c1 Hc E) as Hun.
  destruct (State_process_sound st f c Hc) as [_ Hs].
  destruct (Hs w1 c1 E) as (Hc1 & _).
  destruct (is_verdict w1) as [v1|] eqn:V.
  - assert (Hend : process_loop f w1 c1
                   = Ret ((Py.join (parse_string c1), v1), c1))
      by (destruct f; simpl; rewrite V; reflexivity).
    rewrite Hend in H. inversion H; subst.
    split; [exact Hun|].
    exact (State_process_verdict st f c w1 c' v Hc E V).
  - destruct (IH w1 c1 out v c' Hc1 V H) as (H1 & H2 & H3).
    split; [congruence|]. split; assumption.
Qed.

Lemma list_of_str_join T : cells_ok T -> Py.list_of_str (Py.join T) = T.
Proof.
  induction 1 as [|x T Hx _ IH]; simpl; [reflexivity|].
  destruct x as [|a [|b x]]; simpl in Hx; try discriminate.
  simpl. now rewrite IH.
Qed.

Lemma nth_list_of_str s i :
  nth_error (Py.list_of_str s) i
  = option_map (fun a => String a EmptyString) (String.get i s).
Proof.
  revert i. induction s as [|a s IH]; intros [|i]; simpl; auto.
Qed.

Lemma unmark_delimiter a b d :
  unmark a = unmark b -> d = "X" \/ d = "Y" -> a = d -> b = d.
Proof.
  unfold unmark. intros H Hd ->.
  destruct Hd as [->| ->]; cbn in H;
    destruct (String.eqb_spec b "A"); try discriminate;
    destruct (String.eqb_spec b "B"); try discriminate; congruence.
Qed.

(** X4.  Whenever Locator(s).start() returns, the string returned and
    the input are the same once every marker is read back as its digit
    (A as 0, B as 1): a run only ever replaces a digit by its marker or a
    marker by its digit.  In particular the separators X and the
    delimiters Y are where they were. *)
Theorem run_only_marks (s : string) (fuel : nat) (out v : string) :
  run fuel s = Ret (out, v) ->
  map unmark (Py.list_of_str out) = map unmark (Py.list_of_str s) /\
  forall i d,
    d = "X"%char \/ d = "Y"%char ->
    (String.get i out = Some d <-> String.get i s = Some d).
Proof.
  unfold run. intros H.
  apply bind_ret in H as (self & Hi & H1).
  apply bind_ret in H1 as ([res self'] & Hr & H2).
  inversion H2; subst res. clear H2.
  pose proof (init_cursor_ok _ _ Hi) as Hc.
  apply init_sound in Hi as (Hv & _). apply validate_sound in Hv as [HT _].
  unfold Locator_start, Locator_process in Hr.
  destruct (process_loop_sound fuel None (set_curr_state self (ObjState L1)))
    as [_ Hs]; [exact Hc|intros _; now exists L1|discriminate|].
  destruct (Hs _ _ _ Hr) as (_ & _ & Hcells & -> & _).
  destruct (process_loop_effect fuel None (set_curr_state self (ObjState L1))
              _ _ _ Hc eq_refl Hr) as (Hun & _).
  cbn [set_curr_state parse_string] in Hun, Hcells.
  rewrite HT in Hun, Hcells. specialize (Hcells (list_of_str_cells s)).
  assert (Hmap : map unmark (Py.list_of_str (Py.join (parse_string self')))
                 = map unmark (Py.list_of_str s))
    by (rewrite list_of_str_join by exact Hcells; exact Hun).
  split; [exact Hmap|].
  intros i d Hd.
  assert (Hd' : String d EmptyString = "X" \/ String d EmptyString = "Y")
    by (destruct Hd as [->| ->]; auto).
  assert (Hnth : forall s1 s2,
            map unmark (Py.list_of_str s1) = map unmark (Py.list_of_str s2) ->
            String.get i s1 = Some d -> String.get i s2 = Some d).
  { intros s1 s2 Hm Hg.
    assert (E : nth_error (map unmark (Py.list_of_str s1)) i
                = nth_error (map unmark (Py.list_of_str s2)) i)
      by (now rewrite Hm).
    rewrite !nth_error_map, !nth_list_of_str, Hg in E.
    destruct (String.get i s2) as [b|]; [|discriminate].
    cbn in E. inversion E as [E'].
    pose proof (unmark_delimiter _ _ _ E' Hd' eq_refl) as Hb.
    inversion Hb. reflexivity. }
  split; apply Hnth; [exact Hmap|symmetry; exact Hmap].
Qed.

Lemma run_only_marks_witness :
  run 20 "Y11X00Y" = Ret ("Y1BXA0Y", "Halt") /\
  map unmark (Py.list_of_str "Y1BXA0Y") = map unmark (Py.list_of_str "Y11X00Y").
Proof.
  split; [reflexivity|].
  exact (proj1 (run_only_marks "Y11X00Y" 20 "Y1BXA0Y" "Halt" eq_refl)).
Defined.

(** X5.  Whenever start() returns from a locator whose cursor is in
    range, the verdict says where the machine stopped: "Copy" is returned
    with the cursor on a separator X (read by R1) and "Halt" with the
    cursor on a delimiter Y (read by R4); the string returned is the tape
    joined, and [curr_state] then holds the verdict string, not a state. *)
Theorem verdict_tells_the_stop
    (self : Locator) (fuel : nat) (out v : string) (self' : Locator) :
  cursor_ok self ->
  Locator_start fuel self = Ret ((out, v), self') ->
  ((v = "Copy" /\ under_cursor self' = Ret "X") \/
   (v = "Halt" /\ under_cursor self' = Ret "Y")) /\
  out = Py.join (parse_string self') /\
  curr_state self' = Some (ObjStr v).
Proof.
  intros Hc H. unfold Locator_start, Locator_process in H.
  destruct (process_loop_effect fuel None (set_curr_state self (ObjState L1))
              _ _ _ Hc eq_refl H) as (_ & Hv & Hst).
  destruct (process_loop_sound fuel None (set_curr_state self (ObjState L1)))
    as [_ Hs]; [exact Hc|intros _; now exists L1|discriminate|].
  destruct (Hs _ _ _ H) as (_ & _ & _ & Hout & _).
  split; [exact Hv|]. split; [exact Hout|exact Hst].
Qed.

Lemma verdict_tells_the_stop_witness :
  cursor_ok (mkLocator ["Y"; "1"; "X"; "1"; "0"; "Y"] 2 None) /\
  ((("Copy" = "Copy" /\
     under_cursor (mkLocator ["Y"; "1"; "X"; "B"; "0"; "Y"] 2
                     (Some (ObjStr "Copy"))) = Ret "X") \/
    ("Copy" = "Halt" /\
     under_cursor (mkLocator ["Y"; "1"; "X"; "B"; "0"; "Y"] 2
                     (Some (ObjStr "Copy"))) = Ret "Y")) /\
   "Y1XB0Y" = Py.join ["Y"; "1"; "X"; "B"; "0"; "Y"] /\
   Some (ObjStr "Copy") = Some (ObjStr "Copy")).
Proof.
  assert (H : cursor_ok (mkLocator ["Y"; "1"; "X"; "1"; "0"; "Y"] 2 None))
    by (unfold cursor_ok, Py.len; simpl; lia).
  split; [exact H|].
  exact (verdict_tells_the_stop
           (mkLocator ["Y"; "1"; "X"; "1"; "0"; "Y"] 2 None) 20
           "Y1XB0Y" "Copy"
           (mkLocator ["Y"; "1"; "X"; "B"; "0"; "Y"] 2 (Some (ObjStr "Copy")))
           H eq_refl).
Defined.

(** X6.  Locator.process is usable only through Locator.start: called on
    a freshly constructed locator it raises AttributeError (start has not
    set [curr_state]), and called again on a locator whose run has
    returned it raises AttributeError too ([curr_state] is then the verdict
    string, which has no process method). *)
Theorem process_needs_start (s : string) (self : Locator) (fuel : nat) :
  __init__ s = Ret self ->
  Locator_process (S fuel) self = Raise AttributeError /\
  forall fuel0 out v self',
    Locator_start fuel0 self = Ret ((out, v), self') ->
    Locator_process (S fuel) self' = Raise AttributeError.
Proof.
  intros Hi. split.
  - apply init_sound in Hi as (_ & _ & Hst).
    unfold Locator_process. simpl. rewrite Hst. reflexivity.
  - intros fuel0 out v self' H.
    pose proof (init_cursor_ok _ _ Hi) as Hc.
    unfold Locator_start, Locator_process in H.
    destruct (process_loop_effect fuel0 None (set_curr_state self (ObjState L1))
                _ _ _ Hc eq_refl H) as (_ & _ & Hst).
    unfold Locator_process. simpl. rewrite Hst. reflexivity.
Qed.

Lemma process_needs_start_witness :
  __init__ "Y11X00Y"
  = Ret (mkLocator ["Y"; "1"; "1"; "X"; "0"; "0"; "Y"] 3 None) /\
  Locator_process 1 (mkLocator ["Y"; "1"; "1"; "X"; "0"; "0"; "Y"] 3 None)
  = Raise AttributeError.
Proof.
  split; [reflexivity|].
  exact (proj1 (process_needs_start "Y11X00Y"
                  (mkLocator ["Y"; "1"; "1"; "X"; "0"; "0"; "Y"] 3 None) 0
                  eq_refl)).
Defined.

End Effects.

(** ** Locator.__init__: what it raises *)

Section Construction.

Lemma last_char_some a s : exists l, last_char (String a s) = Some l.
Proof.
  revert a. induction s as [|b s IH]; intros a; [now exists a|].
  destruct (IH b) as [l Hl]. exists l. exact Hl.
Qed.

(** The ways a construction can go, in the order of the checks. *)
Lemma init_cases s :
  (s = EmptyString /\ __init__ s = Raise IndexError) \/
  (s <> EmptyString /\
   ~ ((exists body, s = String "Y" body) /\ last_char s = Some "Y"%char) /\
   __init__ s = Raise (AssertionError "Improper delimiters")) \/
  ((exists body, s = String "Y" body) /\ last_char s = Some "Y"%char /\
   (__init__ s = Raise (AssertionError "No target--location pair") \/
    (exists u0 u1 more,
       Py.split "X" s = u0 :: u1 :: more /\
       Py.strip "Y" u0 <> EmptyString /\
       (String.length u1 <= String.length (Py.strip "Y" u0))%nat /\
       __init__ s
       = Raise (AssertionError "Target--location lengths don't match.")) \/
    (exists self, __init__ s = Ret self))).
Proof.
  destruct s as [|a s0]; [left; split; reflexivity|]. right.
  destruct (last_char_some a s0) as [l Hl].
  assert (Hf : Py.str_getitem (String a s0) 0 = Ret (String a EmptyString))
    by (apply str_getitem_first_iff; eauto).
  assert (Hla : Py.str_getitem (String a s0) (-1) = Ret (String l EmptyString))
    by (apply str_getitem_last; eauto).
  unfold __init__, _validate_string. rewrite Hf, Hla. cbn [bind].
  destruct (String.eqb (String a EmptyString) (String l EmptyString)
            && String.eqb (String l EmptyString) "Y") eqn:D.
  - right. apply andb_prop in D as [D1 D2].
    apply String.eqb_eq in D1, D2. inversion D2; subst l.
    inversion D1; subst a.
    split; [eauto|]. split; [exact Hl|].
    unfold assert at 1. cbn [bind]. cbv zeta.
    destruct (Py.split "X" (String "Y" s0)) as [|u0 us] eqn:E;
      [exfalso; exact (split_nonempty _ _ E)|].
    rewrite getitem_0. cbn [bind]. rewrite truthy_length.
    destruct us as [|u1 more].
    { left. reflexivity. }
    assert (T1 : (1 <? Py.len (u0 :: u1 :: more)) = true)
      by (apply Z.ltb_lt; unfold Py.len; simpl List.length; lia).
    rewrite T1. cbn [andb].
    destruct (0 <? Py.len_str (Py.strip "Y" u0)) eqn:T2.
    2:{ left. reflexivity. }
    unfold assert at 1. cbn [bind]. rewrite getitem_1. cbn [bind andb].
    destruct (Py.len_str (Py.strip "Y" u0) <? Py.len_str u1) eqn:T3.
    + right. right. unfold assert. cbn [bind].
      destruct (split_inv _ _ _ _ E) as [_ [[Hx _]|[tl [Hs _]]]];
        [discriminate|].
      destruct (index_from_total "X" (Py.list_of_str (String "Y" s0)) 0)
        as [p Hp].
      { rewrite Hs, list_of_str_app. apply in_or_app. right. now left. }
      unfold Py.list_index. rewrite Hp. cbn [bind]. eauto.
    + right. left. exists u0, u1, more.
      apply Z.ltb_lt in T2. apply Z.ltb_ge in T3.
      unfold Py.len_str in *.
      split; [reflexivity|]. split.
      * intros Hn. rewrite Hn in T2. simpl in T2. lia.
      * split; [lia|reflexivity].
  - left. split; [discriminate|]. split; [|reflexivity].
    intros [[body Hb] Hy]. inversion Hb; subst a.
    rewrite Hl in Hy. inversion Hy; subst l. discriminate D.
Qed.

(** X7.  What the constructor raises: IndexError exactly on the empty
    string (the first check indexes the string before any assertion);
    AssertionError("Improper delimiters") exactly on a non-empty string
    whose first and last character are not both Y; and otherwise nothing
    but an AssertionError with one of the two other messages, the last of
    which always means that the stripped target is non-empty and at least
    as long as the second unit.  The search for the first X never fails
    once the validation has passed. *)
Theorem constructor_exceptions (s : string) :
  (__init__ s = Raise IndexError <-> s = EmptyString) /\
  (__init__ s = Raise (AssertionError "Improper delimiters") <->
   s <> EmptyString /\
   ~ ((exists body, s = String "Y" body) /\ last_char s = Some "Y"%char)) /\
  (forall e, __init__ s = Raise e ->
     e = IndexError \/
     e = AssertionError "Improper delimiters" \/
     e = AssertionError "No target--location pair" \/
     e = AssertionError "Target--location lengths don't match.") /\
  (__init__ s = Raise (AssertionError "Target--location lengths don't match.")
   -> exists u0 u1 more,
        Py.split "X" s = u0 :: u1 :: more /\
        Py.strip "Y" u0 <> EmptyString /\
        (String.length u1 <= String.length (Py.strip "Y" u0))%nat).
Proof.
  assert (Hne : (exists body, s = String "Y" body) -> s <> EmptyString)
    by (intros [body ->]; discriminate).
  destruct (init_cases s)
    as [[Hs Hi]|[(Hs & Hd & Hi)|(Hh & Hl & [Hi|[Hi|[self Hi]]])]];
    try (destruct Hi as (u0 & u1 & more & Hsp & Hn0 & Hlen & Hi));
    rewrite Hi.
  - subst s. split; [split; auto|]. split.
    + split; [discriminate|]. intros [H _]. congruence.
    + split; [intros e He; inversion He; auto|discriminate].
  - split; [split; [discriminate|intros H; congruence]|]. split.
    + split; [intros _; now split|reflexivity].
    + split; [intros e He; inversion He; auto|discriminate].
  - specialize (Hne Hh).
    split; [split; [discriminate|intros H; congruence]|]. split.
    + split; [discriminate|]. intros [_ H]. exfalso. apply H. now split.
    + split; [intros e He; inversion He; auto|discriminate].
  - specialize (Hne Hh).
    split; [split; [discriminate|intros H; congruence]|]. split.
    + split; [discriminate|]. intros [_ H]. exfalso. apply H. now split.
    + split; [intros e He; inversion He; auto 6|].
      intros _. exists u0, u1, more. auto.
  - specialize (Hne Hh).
    split; [split; [discriminate|intros H; congruence]|]. split.
    + split; [discriminate|]. intros [_ H]. exfalso. apply H. now split.
    + split; [intros e He; inversion He|discriminate].
Qed.

(** X11.  The constructor returns exactly on the strings of the shape
    its checks describe, and raises on every other string: the string
    begins and ends with Y, it contains an X, the text before the first X
    with every leading and trailing Y stripped is non-empty, and that text
    is strictly shorter than the text from the first X to the next X or,
    when there is no other X, to the end of the string with its closing Y.
    The six strings the docstring calls invalid raise an AssertionError in
    the constructor, whatever the loop budget. *)
Theorem constructor_raises_iff (s : string) :
  ((exists e, __init__ s = Raise e) <-> ~ accepted_shape s) /\
  ((exists self, __init__ s = Ret self) <-> accepted_shape s) /\
  Forall (fun x => exists msg,
            __init__ x = Raise (AssertionError msg) /\
            forall fuel, run fuel x = Raise (AssertionError msg))
    ["Y"; "YY"; "Y11X1"; "Y11X11"; "YX11"; "YX11Y"].
Proof.
  assert (Hacc : (exists self, __init__ s = Ret self) <-> accepted_shape s).
  { split.
    - intros [self H]. apply init_sound in H as (Hv & _ & _).
      pose proof (validate_sound _ _ Hv) as [HT _]. rewrite HT in Hv.
      apply validate_iff. exact Hv.
    - intros Hs. pose proof (proj2 (validate_iff s) Hs) as Hv.
      destruct Hs as (u0 & u1 & rest & Hs & _).
      destruct (index_from_total "X" (Py.list_of_str s) 0) as [p Hp].
      { rewrite Hs, list_of_str_app. apply in_or_app. right. now left. }
      exists (mkLocator (Py.list_of_str s) p None).
      unfold __init__. rewrite Hv. cbn [bind]. unfold Py.list_index.
      rewrite Hp. reflexivity. }
  split; [|split; [exact Hacc|]].
  - split.
    + intros [e He] Hs. apply Hacc in Hs as [self Hself]. congruence.
    + intros Hn. destruct (__init__ s) as [self|e|] eqn:E.
      * exfalso. apply Hn, Hacc. now exists self.
      * now exists e.
      * exfalso. exact (init_total s E).
  - repeat constructor; eexists; (split; [reflexivity|intros fuel; reflexivity]).
Qed.

End Construction.

(** ** Validation and runs on well-formed tapes *)

Section WellFormed.

Lemma string_app_assoc (a b c : string) :
  ((a ++ b) ++ c)%string = (a ++ (b ++ c))%string.
Proof. induction a as [|x a IH]; simpl; [reflexivity|]. now rewrite IH. Qed.

Lemma join_app (a b : list string) :
  Py.join (a ++ b) = (Py.join a ++ Py.join b)%string.
Proof.
  induction a as [|x a IH]; simpl; [reflexivity|].
  now rewrite IH, string_app_assoc.
Qed.

Lemma join_list_of_str s : Py.join (Py.list_of_str s) = s.
Proof. induction s as [|a s IH]; simpl; [reflexivity|]. now rewrite IH. Qed.

Lemma join_digits_cons (b : bool) bs :
  Py.join (digits (b :: bs))
  = String (if b then "1"%char else "0"%char) (Py.join (digits bs)).
Proof. destruct b; reflexivity. Qed.

Lemma digits_without (d : ascii) bs :
  d = "X"%char \/ d = "Y"%char ->
  Py.char_in d (Py.join (digits bs)) = false.
Proof.
  intros Hd. induction bs as [|b bs IH]; [reflexivity|].
  rewrite join_digits_cons. cbn [Py.char_in]. rewrite IH.
  destruct Hd as [->| ->]; destruct b; reflexivity.
Qed.

Lemma digits_length bs : String.length (Py.join (digits bs)) = List.length bs.
Proof.
  induction bs as [|b bs IH]; [reflexivity|].
  rewrite join_digits_cons. simpl. now rewrite IH.
Qed.

Lemma lstrip_digits bs :
  Py.lstrip "Y" (Py.join (digits bs)) = Py.join (digits bs).
Proof. destruct bs as [|[] bs]; reflexivity. Qed.

Lemma rstrip_digits bs :
  Py.rstrip "Y" (Py.join (digits bs)) = Py.join (digits bs).
Proof.
  induction bs as [|b bs IH]; [reflexivity|].
  rewrite join_digits_cons. cbn [Py.rstrip]. rewrite IH.
  destruct (Py.join (digits bs)); [destruct b; reflexivity|reflexivity].
Qed.

Lemma strip_target bs :
  Py.strip "Y" (String "Y" (Py.join (digits bs))) = Py.join (digits bs).
Proof.
  unfold Py.strip.
  change (Py.lstrip "Y" (String "Y" (Py.join (digits bs))))
    with (Py.lstrip "Y" (Py.join (digits bs))).
  now rewrite lstrip_digits, rstrip_digits.
Qed.

Lemma last_char_app a b :
  b <> EmptyString -> last_char (a ++ b) = last_char b.
Proof.
  intros Hb. induction a as [|x a IH]; [reflexivity|].
  simpl. destruct (a ++ b)%string eqn:E.
  - destruct a; simpl in E; [congruence|discriminate].
  - exact IH.
Qed.

Lemma join_blocks c cs :
  Py.join (blocks c cs)
  = (Py.join (digits c)
       ++ match cs with
          | [] => "Y"
          | c' :: cs' => String "X" (Py.join (blocks c' cs'))
          end)%string.
Proof. destruct cs; simpl; now rewrite join_app. Qed.

Lemma blocks_end c cs : last_char (Py.join (blocks c cs)) = Some "Y"%char.
Proof.
  revert c. induction cs as [|c' cs IH]; intros c; rewrite join_blocks.
  - now rewrite last_char_app by discriminate.
  - rewrite last_char_app by discriminate.
    specialize (IH c').
    destruct (Py.join (blocks c' cs)) eqn:E; [discriminate IH|exact IH].
Qed.

Lemma input_tape_cells t c cs : cells_ok (input_tape t c cs).
Proof.
  assert (D : forall bs, cells_ok (digits bs))
    by (intros bs; apply Forall_digits; intros []; reflexivity).
  unfold input_tape. constructor; [reflexivity|].
  apply Forall_app. split; [apply D|]. constructor; [reflexivity|].
  revert c. induction cs as [|c' cs IH]; intros c; simpl.
  - apply Forall_app. split; [apply D|]. now constructor.
  - apply Forall_app. split; [apply D|]. constructor; [reflexivity|apply IH].
Qed.

(** The validation computed on a well-formed tape. *)
Lemma validate_well_formed t c cs :
  _validate_string (Py.join (input_tape t c cs))
  = if (0 <? List.length t)%nat then
      if (List.length t <? second_unit_length c cs)%nat
      then Ret (input_tape t c cs)
      else Raise (AssertionError "Target--location lengths don't match.")
    else Raise (AssertionError "No target--location pair").
Proof.
  set (s := Py.join (input_tape t c cs)).
  assert (Hs : s = String "Y" (Py.join (digits t)
                                ++ String "X" (Py.join (blocks c cs)))).
  { subst s. unfold input_tape. cbn [Py.join String.append].
    now rewrite join_app. }
  assert (Hlast : last_char s = Some "Y"%char).
  { rewrite Hs.
    change (String "Y" (Py.join (digits t)
                          ++ String "X" (Py.join (blocks c cs))))
      with ("Y" ++ (Py.join (digits t)
                       ++ String "X" (Py.join (blocks c cs))))%string.
    rewrite !last_char_app by (try discriminate;
      destruct (Py.join (digits t)); discriminate).
    pose proof (blocks_end c cs) as H.
    destruct (Py.join (blocks c cs)) eqn:E; [discriminate H|exact H]. }
  assert (Hf : Py.str_getitem s 0 = Ret "Y")
    by (apply str_getitem_first_iff; rewrite Hs; eauto).
  assert (Hl : Py.str_getitem s (-1) = Ret "Y")
    by (apply str_getitem_last; eauto).
  assert (Hu : exists u1 more,
            Py.split "X" s = String "Y" (Py.join (digits t)) :: u1 :: more /\
            String.length u1 = second_unit_length c cs).
  { rewrite Hs.
    change (String "Y" (Py.join (digits t)
                          ++ String "X" (Py.join (blocks c cs))))
      with (String "Y" (Py.join (digits t))
              ++ String "X" (Py.join (blocks c cs)))%string.
    rewrite split_app
      by (cbn [Py.char_in]; rewrite digits_without by (now left); reflexivity).
    rewrite join_blocks. destruct cs as [|c' cs'].
    - exists (Py.join (digits c) ++ "Y")%string, []. split.
      + f_equal. apply split_whole.
        assert (G : forall a, Py.char_in "X" a = false ->
                          Py.char_in "X" (a ++ "Y") = false)
          by (induction a as [|x a IH]; simpl; [reflexivity|];
              intros H; apply orb_false_elim in H as [-> H]; auto).
        apply G, digits_without. now left.
      + rewrite string_length_app, digits_length. simpl. lia.
    - eexists (Py.join (digits c)), _. split.
      + rewrite split_app by (apply digits_without; now left). reflexivity.
      + apply digits_length. }
  destruct Hu as (u1 & more & Hsp & Hu1).
  assert (Ht : Py.len_str (Py.join (digits t)) = Z.of_nat (List.length t))
    by (unfold Py.len_str; now rewrite digits_length).
  assert (T1 : (1 <? Py.len (String "Y" (Py.join (digits t)) :: u1 :: more))
               = true)
    by (apply Z.ltb_lt; unfold Py.len; simpl List.length; lia).
  assert (T2 : (0 <? Z.of_nat (List.length t)) = (0 <? List.length t)%nat).
  { destruct (Nat.ltb_spec 0 (List.length t));
      destruct (Z.ltb_spec 0 (Z.of_nat (List.length t))); (reflexivity || lia). }
  assert (T3 : (Z.of_nat (List.length t) <? Py.len_str u1)
               = (List.length t <? second_unit_length c cs)%nat).
  { unfold Py.len_str. rewrite Hu1.
    destruct (Nat.ltb_spec (List.length t) (second_unit_length c cs));
      destruct (Z.ltb_spec (Z.of_nat (List.length t))
                  (Z.of_nat (second_unit_length c cs)));
      (reflexivity || lia). }
  unfold _validate_string. rewrite Hf, Hl. cbn [bind].
  unfold assert at 1. cbn [String.eqb Ascii.eqb Bool.eqb andb bind].
  cbv zeta. rewrite Hsp, getitem_0. cbn [bind].
  rewrite strip_target, truthy_length, Ht, T1, T2. cbn [andb].
  destruct (0 <? List.length t)%nat; [|reflexivity].
  unfold assert at 1. cbn [bind]. rewrite getitem_1. cbn [bind andb].
  rewrite T3.
  destruct (List.length t <? second_unit_length c cs)%nat; [|reflexivity].
  unfold assert. cbn [bind]. subst s.
  now rewrite list_of_str_join by apply input_tape_cells.
Qed.

(** X8.  On a well-formed tape (Y, target bits, X, blocks of bits
    separated by X, Y) the validation succeeds exactly when the target is
    non-empty and strictly shorter than the second unit of the split,
    which is the first block when another block follows but the first
    block and the closing Y when it is the only one: a single block may
    be as short as the target, a first block followed by others must be
    longer.  Otherwise it raises the AssertionError of the failing check. *)
Theorem validation_of_well_formed_tapes
    (t c : list bool) (cs : list (list bool)) :
  (_validate_string (Py.join (input_tape t c cs)) = Ret (input_tape t c cs)
   <-> (0 < List.length t < second_unit_length c cs)%nat) /\
  (t = [] ->
   _validate_string (Py.join (input_tape t c cs))
   = Raise (AssertionError "No target--location pair")) /\
  (t <> [] -> (second_unit_length c cs <= List.length t)%nat ->
   _validate_string (Py.join (input_tape t c cs))
   = Raise (AssertionError "Target--location lengths don't match.")).
Proof.
  rewrite validate_well_formed.
  destruct (Nat.ltb_spec 0 (List.length t)) as [H0|H0];
    [destruct (Nat.ltb_spec (List.length t) (second_unit_length c cs))
       as [H1|H1]|].
  - split; [split; [intros _; lia|reflexivity]|].
    split; [intros ->; simpl in H0; lia|intros _ H; lia].
  - split; [split; [discriminate|intros H; lia]|].
    split; [intros ->; simpl in H0; lia|reflexivity].
  - split; [split; [discriminate|intros H; lia]|].
    split; [reflexivity|].
    intros Ht. destruct t; [congruence|simpl in H0; lia].
Qed.

(** X9.  A validated input with a single candidate block of bits is
    always decided: the validation itself makes the block at least as
    long as the target, so start() returns, with "Copy" and the first
    bits of the block marked when the block begins with the target, and
    otherwise with "Halt", the block marked up to and with its first
    differing bit and the target restored up to that bit. *)
Theorem single_candidate_is_decided (s : string) (t c : list bool) :
  _validate_string s = Ret (input_tape t c []) ->
  (List.length t <= List.length c)%nat /\
  returns (fun fuel => run fuel s)
    (if begins_with t c then
       (Py.join ("Y" :: digits t ++ "X" :: marks t
                     ++ digits (skipn (List.length t) c) ++ ["Y"]), "Copy")
     else
       (Py.join (("Y" :: digits (firstn (S (common t c)) t)
                      ++ marks (skipn (S (common t c)) t) ++ "X"
                      :: marks (firstn (S (common t c)) c)
                      ++ digits (skipn (S (common t c)) c)) ++ ["Y"]),
        "Halt")).
Proof.
  intros Hv.
  assert (Hlen : (List.length t <= List.length c)%nat).
  { pose proof (validate_sound _ _ Hv) as [HT _].
    assert (Hs : s = Py.join (input_tape t c []))
      by (rewrite HT; symmetry; apply join_list_of_str).
    rewrite Hs, validate_well_formed in Hv.
    destruct (0 <? List.length t)%nat; [|discriminate].
    destruct (Nat.ltb_spec (List.length t) (second_unit_length c []));
      [|discriminate].
    simpl in *. lia. }
  split; [exact Hlen|].
  destruct (start_located s t c [] Hv) as (self & Hi & _ & Hr);
    [now constructor|].
  cbn [located] in Hr.
  destruct (begins_with t c); cbn [outcome_of closing app] in Hr;
    exact (run_returns _ _ _ _ Hi Hr).
Qed.

Lemma single_candidate_is_decided_witness :
  _validate_string "Y10X11Y" = Ret (input_tape [true; false] [true; true] []) /\
  (2 <= 2)%nat /\
  returns (fun fuel => run fuel "Y10X11Y") ("Y10XBBY", "Halt").
Proof.
  split; [reflexivity|].
  exact (single_candidate_is_decided "Y10X11Y" [true; false] [true; true]
           eq_refl).
Defined.

Lemma begins_with_split :
  forall t m, begins_with t m = true -> exists c3, m = t ++ c3.
Proof.
  unfold begins_with. induction t as [|a t IH]; intros m H.
  - now exists m.
  - destruct m as [|b m]; simpl in H; [discriminate|].
    destruct (Bool.eqb a b) eqn:E; [|discriminate].
    apply Bool.eqb_prop in E. subst b.
    destruct (IH m H) as [c3 ->]. now exists c3.
Qed.

Lemma region_after b l :
  l <> [] -> blocks b l = digits b ++ "X" :: region l.
Proof. destruct l; [congruence|reflexivity]. Qed.

(** Comparing block after block up to the first block that begins with
    the target. *)
Lemma scan_to_match (t m : list bool) (after : list (list bool)) :
  begins_with t m = true ->
  forall before P,
    Forall settled P ->
    Forall (fun b => (List.length t <= List.length b)%nat /\
                     begins_with t b = false) before ->
    halts (cfg [] "Y"
             (marks t ++ "X" :: P ++ region (before ++ m :: after))
             (Some (ObjState R1)))
      (outcome_of
         ("Y" :: digits t ++ "X" :: P ++ marked_blocks before ++ marks t
              ++ digits (skipn (List.length t) m) ++ closing after,
          Z.of_nat (List.length t) + 1, "Copy")).
Proof.
  intros Hm. destruct (begins_with_split t m Hm) as [c3 ->].
  rewrite skipn_exact.
  induction before as [|b before IH]; intros P HP Hb.
  - cbn [app region marked_blocks]. rewrite blocks_closing.
    exact (candidate_copy t [] P c3 (closing after) HP).
  - inversion Hb as [|? ? [Hlen Hno] Hb']; subst.
    cbn [app region]. rewrite region_after by (destruct before; discriminate).
    destruct (bits_split t b Hlen) as [[c4 ->]|(u & b0 & t3 & c4 & -> & ->)].
    { rewrite begins_with_prefix in Hno. discriminate. }
    apply (halts_same _ (comparing [] (u ++ b0 :: t3) P (u ++ negb b0 :: c4)
                           ("X" :: region (before
                                              ++ ((u ++ b0 :: t3) ++ c3)
                                              :: after)))); [reflexivity|].
    apply mismatch_next; [exact HP|]. cbn [app].
    eapply halts_res;
      [|apply (IH (P ++ marks (u ++ negb b0 :: c4) ++ ["X"]));
        [all_cells|exact Hb']].
    cbn [marked_blocks outcome_of]. rewrite <- !app_assoc. reflexivity.
Qed.

(** X10.  On a validated input whose candidate blocks are bits, when some
    block begins with the target and every block before it is at least
    as long as the target and does not begin with it, start() returns
    "Copy": in the tape returned the target is restored to digits, the
    blocks before the matching one are marked throughout, the matching
    block is marked on the length of the target, and everything after it
    is untouched (whatever the lengths of the later blocks). *)
Theorem copy_at_first_matching_block
    (s : string) (t m : list bool) (before after : list (list bool)) :
  _validate_string s
  = Ret ("Y" :: digits t ++ "X" :: region (before ++ m :: after)) ->
  Forall (fun b => (List.length t <= List.length b)%nat /\
                   begins_with t b = false) before ->
  begins_with t m = true ->
  returns (fun fuel => run fuel s)
    (Py.join ("Y" :: digits t ++ "X" :: marked_blocks before ++ marks t
                  ++ digits (skipn (List.length t) m) ++ closing after),
     "Copy").
Proof.
  intros Hv Hb Hm.
  eapply run_returns; [apply init_on_tape; exact Hv|].
  apply (start_sweep _ t (region (before ++ m :: after)));
    [reflexivity|reflexivity|].
  exact (scan_to_match t m after Hm before [] (Forall_nil _) Hb).
Qed.

Lemma copy_at_first_matching_block_witness :
  _validate_string "Y11X100X11X1Y"
  = Ret ("Y" :: digits [true; true] ++ "X"
             :: region ([[true; false; false]] ++ [true; true] :: [[true]])) /\
  returns (fun fuel => run fuel "Y11X100X11X1Y") ("Y11XBAAXBBX1Y", "Copy").
Proof.
  split; [reflexivity|].
  refine (copy_at_first_matching_block "Y11X100X11X1Y" [true; true]
            [true; true] [[true; false; false]] [[true]] eq_refl _ eq_refl).
  repeat constructor.
Defined.

End WellFormed.
